(** * Deterministic deployment and proxy orchestration of the Hardhat plugin

    Shallow embedding of
    - [packages/plugin-hardhat/src/utils/create2-deployer.ts]
      (buildBytecode, buildCreate2Address, saltToHex, encodeParams,
      deployContract, getCreate2Address), and
    - [packages/plugin-hardhat/src/deploy-proxy.ts] (deployProxy).

    Hex data is kept as the JavaScript strings the code handles.  The
    functions of the ethers library are modelled on top of a byte-level hash
    and an ABI coder that the development is parametric in; the asynchronous
    calls to collaborators outside these two files are the requests of a
    small free monad, answered by an arbitrary environment. *)

From Stdlib Require Import List Strings.String Strings.Ascii Strings.Byte NArith ZArith Bool Arith Lia.
From Stdlib Require Import DecimalString.
Import ListNotations.

Local Open Scope string_scope.
Local Open Scope list_scope.

(* ================================================================== *)
(** ** JavaScript string operations used by the sources *)

Module JsString.

(** [s.slice(2)] and friends: drop the first [n] characters. *)
Fixpoint slice (n : nat) (s : string) : string :=
  match n, s with
  | O, _ => s
  | S _, EmptyString => EmptyString
  | S n', String _ s' => slice n' s'
  end.

(** [s.slice(-n)]: the last [n] characters, the whole string when it is
    shorter. *)
Definition slice_last (n : nat) (s : string) : string :=
  slice (String.length s - n) s.

(** [s.replace(/0x/, '')]: a regular expression without the [g] flag
    replaces the leftmost match only. *)
Fixpoint replace_0x (s : string) : string :=
  match s with
  | EmptyString => EmptyString
  | String c s' =>
      match s' with
      | String c' s'' =>
          if (Ascii.eqb c "0" && Ascii.eqb c' "x")%bool then s''
          else String c (replace_0x s')
      | EmptyString => s
      end
  end.

Definition lower_char (c : ascii) : ascii :=
  let n := nat_of_ascii c in
  if (65 <=? n)%nat && (n <=? 90)%nat then ascii_of_nat (n + 32) else c.

(** [s.toLowerCase()], on the ASCII range. *)
Fixpoint toLowerCase (s : string) : string :=
  match s with
  | EmptyString => EmptyString
  | String c s' => String (lower_char c) (toLowerCase s')
  end.

(** [[a, b, ...].join('')]. *)
Definition join (l : list string) : string :=
  fold_right String.append EmptyString l.

(** [n.toString()] for a safe integer (magnitude below 2^53): such a number
    is the integer it denotes and JavaScript prints its plain decimal numeral.
    Above that a number is a double that not every integer is, and the
    numeral printed is the shortest one that reads back as that double. *)
Definition number_toString (z : Z) : string :=
  NilZero.string_of_int (Z.to_int z).

End JsString.

(* ================================================================== *)
(** ** Hex data: ethers' [arrayify] and [hexlify] *)

Module Hex.

Definition nibble_char (n : N) : ascii :=
  match n with
  | 0%N => "0" | 1%N => "1" | 2%N => "2" | 3%N => "3"
  | 4%N => "4" | 5%N => "5" | 6%N => "6" | 7%N => "7"
  | 8%N => "8" | 9%N => "9" | 10%N => "a" | 11%N => "b"
  | 12%N => "c" | 13%N => "d" | 14%N => "e" | _ => "f"
  end%char.

(** Value of a character of [[0-9A-Fa-f]]. *)
Definition char_nibble (c : ascii) : option N :=
  let n := N_of_ascii c in
  if (48 <=? n)%N && (n <=? 57)%N then Some (n - 48)%N
  else if (97 <=? n)%N && (n <=? 102)%N then Some (n - 87)%N
  else if (65 <=? n)%N && (n <=? 70)%N then Some (n - 55)%N
  else None.

Definition byte_of_N (n : N) : byte :=
  match Byte.of_N n with Some b => b | None => x00 end.

Definition hex_of_byte (b : byte) (rest : string) : string :=
  let n := Byte.to_N b in
  String (nibble_char (n / 16)) (String (nibble_char (n mod 16)) rest).

(** The digits of a byte array, two per byte, lower case. *)
Definition hex_of_bytes (bs : list byte) : string :=
  fold_right hex_of_byte EmptyString bs.

(** [hexlify(bytes)]: the digits behind the [0x] prefix. *)
Definition hexlify (bs : list byte) : string := "0x" ++ hex_of_bytes bs.

Fixpoint parse_hex (s : string) : option (list byte) :=
  match s with
  | EmptyString => Some []
  | String _ EmptyString => None
  | String c1 (String c2 rest) =>
      match char_nibble c1, char_nibble c2, parse_hex rest with
      | Some h, Some l, Some bs => Some (byte_of_N (16 * h + l) :: bs)
      | _, _, _ => None
      end
  end.

(** [arrayify(s)] for a string argument: [s] has to match
    [/^0x[0-9A-Fa-f]*$/] and to hold an even number of digits, otherwise
    ethers throws ([None]). *)
Definition arrayify (s : string) : option (list byte) :=
  match s with
  | String "0" (String "x" digits) => parse_hex digits
  | _ => None
  end.

(** [toUtf8Bytes(s)]: a Rocq string is a sequence of octets, read here as
    the UTF-8 encoding of the JavaScript string it stands for. *)
Definition toUtf8Bytes (s : string) : list byte := list_byte_of_string s.

End Hex.

(* ================================================================== *)
(** ** Keccak-256, the instance of the hash used to evaluate the model *)

Module Keccak.

Definition mask64 : N := 0xFFFFFFFFFFFFFFFF.

Definition rol (v n : N) : N :=
  N.land (N.lor (N.shiftl v n) (N.shiftr v (64 - n))) mask64.

Definition lane (A : list N) (i : nat) : N := nth i A 0%N.

Definition RC : list N :=
  [ 0x0000000000000001; 0x0000000000008082; 0x800000000000808A;
    0x8000000080008000; 0x000000000000808B; 0x0000000080000001;
    0x8000000080008081; 0x8000000000008009; 0x000000000000008A;
    0x0000000000000088; 0x0000000080008009; 0x000000008000000A;
    0x000000008000808B; 0x800000000000008B; 0x8000000000008089;
    0x8000000000008003; 0x8000000000008002; 0x8000000000000080;
    0x000000000000800A; 0x800000008000000A; 0x8000000080008081;
    0x8000000000008080; 0x0000000080000001; 0x8000000080008008 ]%N.

(** For each lane of the result of rho and pi: the lane it comes from and
    the rotation it undergoes. *)
Definition rho_pi_table : list (nat * N) :=
  [ (0, 0%N); (6, 44%N); (12, 43%N); (18, 21%N); (24, 14%N);
    (3, 28%N); (9, 20%N); (10, 3%N); (16, 45%N); (22, 61%N);
    (1, 1%N); (7, 6%N); (13, 25%N); (19, 8%N); (20, 18%N);
    (4, 27%N); (5, 36%N); (11, 10%N); (17, 15%N); (23, 56%N);
    (2, 62%N); (8, 55%N); (14, 39%N); (15, 41%N); (21, 2%N) ].

Definition theta (A : list N) : list N :=
  let C x := N.lxor (lane A x) (N.lxor (lane A (x + 5))
               (N.lxor (lane A (x + 10)) (N.lxor (lane A (x + 15)) (lane A (x + 20))))) in
  let D x := N.lxor (C ((x + 4) mod 5)) (rol (C ((x + 1) mod 5)) 1) in
  map (fun i => N.lxor (lane A i) (D (i mod 5))) (seq 0 25).

Definition rho_pi (A : list N) : list N :=
  map (fun sr => rol (lane A (fst sr)) (snd sr)) rho_pi_table.

Definition chi (B : list N) : list N :=
  map (fun i =>
         let x := i mod 5 in
         let y := i / 5 in
         N.lxor (lane B i)
           (N.ldiff (lane B ((x + 2) mod 5 + 5 * y)) (lane B ((x + 1) mod 5 + 5 * y))))
      (seq 0 25).

Definition iota (rc : N) (A : list N) : list N :=
  match A with
  | a :: t => N.lxor a rc :: t
  | [] => []
  end.

Definition round (A : list N) (rc : N) : list N :=
  iota rc (chi (rho_pi (theta A))).

Definition keccak_f (A : list N) : list N := fold_left round RC A.

Definition rate : nat := 136.

Fixpoint le_bytes (n : nat) (v : N) : list byte :=
  match n with
  | O => []
  | S n' => Hex.byte_of_N (v mod 256) :: le_bytes n' (v / 256)
  end.

Fixpoint le_value (bs : list byte) : N :=
  match bs with
  | [] => 0
  | b :: bs' => Byte.to_N b + 256 * le_value bs'
  end.

(** The lanes of a block of [rate] bytes, followed by the capacity. *)
Fixpoint block_lanes (n : nat) (bs : list byte) : list N :=
  match n with
  | O => []
  | S n' => le_value (firstn 8 bs) :: block_lanes n' (skipn 8 bs)
  end.

Definition xor_block (A : list N) (block : list byte) : list N :=
  map (fun i => N.lxor (lane A i) (lane (block_lanes 17 block) i)) (seq 0 25).

(** Multi-rate padding with the original Keccak domain byte. *)
Definition pad (buf : list byte) : list byte :=
  if (S (List.length buf) =? rate)%nat then buf ++ [x81]
  else buf ++ [x01] ++ repeat x00 (rate - List.length buf - 2) ++ [x80].

Fixpoint absorb (A : list N) (buf bs : list byte) : list N :=
  match bs with
  | [] => keccak_f (xor_block A (pad buf))
  | b :: bs' =>
      let buf' := buf ++ [b] in
      if (List.length buf' =? rate)%nat
      then absorb (keccak_f (xor_block A buf')) [] bs'
      else absorb A buf' bs'
  end.

Definition squeeze (A : list N) : list byte :=
  flat_map (le_bytes 8) (firstn 4 A).

Definition keccak_256 (bs : list byte) : list byte :=
  squeeze (absorb (repeat 0%N 25) [] bs).

End Keccak.

(* ================================================================== *)
(** ** Values and records of the two source files *)

(** JavaScript values of type [any] / [unknown] that reach the ABI coder and
    the initializer encoder. *)
#[local] Set Warnings "-register-all".
Inductive Value : Type :=
| VString (s : string)
| VNumber (z : Z)
| VBool (b : bool)
| VArray (l : list Value).

(** [salt: string | number]. *)
Inductive Salt : Type :=
| SaltString (s : string)
| SaltNumber (n : Z).

(** [salt.toString()]. *)
Definition salt_toString (salt : Salt) : string :=
  match salt with
  | SaltString s => s
  | SaltNumber n => JsString.number_toString n
  end.

(** A default parameter value: used when the argument is [undefined]. *)
Definition or_default {A : Type} (d : A) (o : option A) : A :=
  match o with
  | Some a => a
  | None => d
  end.

(** ['uups' | 'transparent' | 'beacon']. *)
Inductive ProxyKind : Type := uups | transparent | beacon.

(** [initializer?: string | false]. *)
Inductive Initializer : Type :=
| InitializerName (name : string)
| InitializerDisabled.

Record Provider : Type := { network : string }.
Record HardhatRuntimeEnvironment : Type := { provider : Provider }.
Record Signer : Type := { signer_address : string }.
(** An ethers [Interface]: the functions of the ABI, each with the types of
    its parameters. *)
Record Interface : Type := { fragments : list (string * list string) }.
Record Manifest : Type := { manifest_provider : Provider }.

(** An ethers [Contract] used as create2 factory. *)
Record Contract : Type := { contract_address : string }.

(** An ethers [TransactionResponse]. *)
Record TransactionResponse : Type := { hash : string }.

(** [{ address, txHash, deployTransaction }]. *)
Record Deployment : Type :=
  { address : string;
    txHash : string;
    deployTransaction : TransactionResponse }.

(** [{ kind } & Required<Deployment & DeployTransaction>]. *)
Record ProxyDeployment : Type :=
  { pd_kind : ProxyKind;
    pd_address : string;
    pd_txHash : string;
    pd_deployTransaction : TransactionResponse }.

(** [Object.assign({ kind }, deployment)]. *)
Definition Object_assign_kind (kind : ProxyKind) (d : Deployment) : ProxyDeployment :=
  {| pd_kind := kind;
     pd_address := address d;
     pd_txHash := txHash d;
     pd_deployTransaction := deployTransaction d |}.

(** An ethers [ContractFactory]. *)
Record ContractFactory : Type :=
  { bytecode : string;
    interface : Interface;
    signer : Signer }.

(** The [Contract] returned to the caller: [ImplFactory.attach(address)] with
    its [deployTransaction] assigned afterwards. *)
Record ContractInstance : Type :=
  { inst_address : string;
    inst_interface : Interface;
    inst_signer : Signer;
    inst_deployTransaction : option TransactionResponse }.

Definition attach (F : ContractFactory) (addr : string) : ContractInstance :=
  {| inst_address := addr;
     inst_interface := interface F;
     inst_signer := signer F;
     inst_deployTransaction := None |}.

Definition set_deployTransaction (inst : ContractInstance) (tx : TransactionResponse)
  : ContractInstance :=
  {| inst_address := inst_address inst;
     inst_interface := inst_interface inst;
     inst_signer := inst_signer inst;
     inst_deployTransaction := Some tx |}.

(** [DeployProxyOptions]; an absent key is [None]. *)
Record DeployProxyOptions : Type :=
  { kind : option ProxyKind;
    initializer : option Initializer;
    unsafeAllow : option (list string);
    deployFactory : option Contract;
    deployFactorySalt : option Salt }.

(** The options object [{}]. *)
Definition no_options : DeployProxyOptions :=
  {| kind := None; initializer := None; unsafeAllow := None;
     deployFactory := None; deployFactorySalt := None |}.

(** The second argument of [deployProxy]: [unknown[] | DeployProxyOptions]. *)
Inductive ArgsOrOpts : Type :=
| ArgsArray (args : list Value)
| OptsObject (opts : DeployProxyOptions).

(** What a rejected promise or a [throw] carries. *)
Inductive Error : Type :=
| BeaconProxyUnsupportedError
| LibraryError
| Rejected (reason : string).

(* ================================================================== *)
(** ** Asynchronous calls and programs *)

(** The awaited calls to collaborators that live outside the two files, each
    with the type of the value its promise resolves to. *)
Inductive Call : Type -> Type :=
| Manifest_forNetwork (p : Provider) : Call Manifest
| deployProxyImpl (hre : HardhatRuntimeEnvironment) (ImplFactory : ContractFactory)
    (opts : DeployProxyOptions) : Call (string * ProxyKind)
| factory_deploy (factory : Contract) (bytecode saltHex : string) : Call TransactionResponse
| deployTransaction_wait (tx : TransactionResponse) : Call unit
| manifest_getAdmin (m : Manifest) : Call (option Deployment)
| logWarning (title : string) (lines : list string) : Call unit
| getProxyFactory (hre : HardhatRuntimeEnvironment) (s : Signer) : Call ContractFactory
| getProxyAdminFactory (hre : HardhatRuntimeEnvironment) (s : Signer) : Call ContractFactory
| getTransparentUpgradeableProxyFactory (hre : HardhatRuntimeEnvironment) (s : Signer)
  : Call ContractFactory
| fetchOrDeployAdmin (p : Provider) (AdminFactory : ContractFactory) : Call string
| deploy (factory : ContractFactory) (args : list Value) : Call Deployment
| manifest_addProxy (m : Manifest) (proxy : ProxyDeployment) : Call unit.

(** Programs: return, throw, or await a call and continue with its value. *)
Inductive Prog (A : Type) : Type :=
| Ret (a : A)
| Throw (e : Error)
| Vis (X : Type) (c : Call X) (k : X -> Prog A).

Arguments Ret {A} a.
Arguments Throw {A} e.
Arguments Vis {A X} c k.

Fixpoint bind {A B : Type} (p : Prog A) (f : A -> Prog B) : Prog B :=
  match p with
  | Ret a => f a
  | Throw e => Throw e
  | Vis c k => Vis c (fun x => bind (k x) f)
  end.

Definition call {X : Type} (c : Call X) : Prog X := Vis c Ret.

(** A synchronous library function that may throw. *)
Definition lift {A : Type} (o : option A) : Prog A :=
  match o with
  | Some a => Ret a
  | None => Throw LibraryError
  end.

Declare Scope prog_scope.
Delimit Scope prog_scope with prog.
Notation "x <- p ;; q" := (bind p (fun x => q))
  (at level 61, p at next level, right associativity) : prog_scope.
Notation "p ;; q" := (bind p (fun _ => q))
  (at level 61, right associativity) : prog_scope.
Notation "' pat <- p ;; q" := (bind p (fun x => match x with pat => q end))
  (at level 61, pat pattern, p at next level, right associativity) : prog_scope.

(** One awaited call together with its outcome. *)
Inductive Event : Type :=
| Ev (X : Type) (c : Call X) (r : Error + X).

Arguments Ev {X} c r.

(** An environment settles every call: it resolves or rejects the promise,
    and moves the world on. *)
Definition Env (W : Type) : Type := forall X : Type, Call X -> W -> (Error + X) * W.

Fixpoint run {W A : Type} (env : Env W) (p : Prog A) (w : W)
  : list Event * (Error + A) * W :=
  match p with
  | Ret a => ([], inr a, w)
  | Throw e => ([], inl e, w)
  | Vis c k =>
      match env _ c w with
      | (inl e, w') => ([Ev c (inl e)], inl e, w')
      | (inr x, w') =>
          match run env (k x) w' with
          | (tr, r, w'') => (Ev c (inr x) :: tr, r, w'')
          end
      end
  end.

Definition trace {W A : Type} (env : Env W) (p : Prog A) (w : W) : list Event :=
  fst (fst (run env p w)).

Definition outcome {W A : Type} (env : Env W) (p : Prog A) (w : W) : Error + A :=
  snd (fst (run env p w)).

Definition final {W A : Type} (env : Env W) (p : Prog A) (w : W) : W :=
  snd (run env p w).

(* ================================================================== *)
(** ** utils/create2-deployer.ts and deploy-proxy.ts *)

Section Plugin.

Local Open Scope prog_scope.

(** The hash behind [ethers.utils.keccak256] and [ethers.utils.id]
    (js-sha3's [keccak_256] on byte arrays). *)
Variable keccak_256 : list byte -> list byte.

(** [ethers.utils.defaultAbiCoder.encode(types, values)]; [None] when it
    throws. *)
Variable abi_encode : list string -> list Value -> option string.

(** [getInitializerData(interface, args, initializer)] of ./utils, a
    synchronous function of its arguments; [None] when it throws. *)
Variable getInitializerData :
  Interface -> list Value -> option Initializer -> option string.

(** [ethers.utils.keccak256(data)]: hashes the bytes a hex string denotes
    and returns the digest as a hex string. *)
Definition keccak256 (data : string) : option string :=
  match Hex.arrayify data with
  | Some bs => Some (Hex.hexlify (keccak_256 bs))
  | None => None
  end.

(** [ethers.utils.id(text)]: [keccak256(toUtf8Bytes(text))]. *)
Definition id (text : string) : string :=
  Hex.hexlify (keccak_256 (Hex.toUtf8Bytes text)).

Definition encodeParams (dataTypes : list string) (data : list Value) : option string :=
  abi_encode dataTypes data.

Definition buildBytecode (constructorTypes : list string) (constructorArgs : list Value)
    (contractBytecode : string) : option string :=
  match encodeParams constructorTypes constructorArgs with
  | Some encoded => Some (contractBytecode ++ JsString.slice 2 encoded)%string
  | None => None
  end.

Definition buildCreate2Address (factoryAddress saltHex byteCode : string) : option string :=
  match keccak256 byteCode with
  | Some codeHash =>
      match keccak256
              ("0x" ++ JsString.join
                 (map JsString.replace_0x ["ff"; factoryAddress; saltHex; codeHash]))%string with
      | Some digest =>
          Some (JsString.toLowerCase ("0x" ++ JsString.slice_last 40 digest)%string)
      | None => None
      end
  | None => None
  end.

Definition saltToHex (salt : Salt) : string := id (salt_toString salt).

Definition getCreate2Address (factoryAddress : string) (salt : Salt)
    (contractBytecode : string)
    (constructorTypes : option (list string)) (constructorArgs : option (list Value))
  : option string :=
  let constructorTypes := or_default [] constructorTypes in
  let constructorArgs := or_default [] constructorArgs in
  let saltHex := saltToHex salt in
  match buildBytecode constructorTypes constructorArgs contractBytecode with
  | Some byteCode => buildCreate2Address factoryAddress saltHex byteCode
  | None => None
  end.

Definition deployContract (salt : Salt) (factory : Contract) (contractBytecode : string)
    (constructorTypes : option (list string)) (constructorArgs : option (list Value))
  : Prog Deployment :=
  let constructorTypes := or_default [] constructorTypes in
  let constructorArgs := or_default [] constructorArgs in
  let saltHex := saltToHex salt in
  bytecode <- lift (buildBytecode constructorTypes constructorArgs contractBytecode) ;;
  address <- lift (getCreate2Address (contract_address factory) salt contractBytecode
                     (Some constructorTypes) (Some constructorArgs)) ;;
  tx <- call (factory_deploy factory bytecode saltHex) ;;
  let txHash := hash tx in
  Ret {| address := address; txHash := txHash; deployTransaction := tx |}.

(** *** deploy-proxy.ts *)

Variable hre : HardhatRuntimeEnvironment.

(** Lines 30 to 33: a second argument that is not an array is the options
    object. *)
Definition normalize (args : option ArgsOrOpts) (opts : option DeployProxyOptions)
  : list Value * DeployProxyOptions :=
  let args := or_default (ArgsArray []) args in
  let opts := or_default no_options opts in
  match args with
  | ArgsArray a => (a, opts)
  | OptsObject o => ([], o)
  end.

(** Lines 38 to 69: the implementation address and the proxy kind. *)
Definition deployImplementation (ImplFactory : ContractFactory) (opts : DeployProxyOptions)
  : Prog (string * ProxyKind) :=
  match deployFactory opts, deployFactorySalt opts with
  | Some factory, Some salt =>
      let kind := or_default uups (kind opts) in
      let bytecode := bytecode ImplFactory in
      contractAddress <- lift (getCreate2Address (contract_address factory) salt bytecode
                                 (Some []) (Some [])) ;;
      d <- deployContract salt factory bytecode (Some []) (Some []) ;;
      let contractDeployment := Object_assign_kind kind d in
      call (deployTransaction_wait (pd_deployTransaction contractDeployment)) ;;
      Ret (contractAddress, kind)
  | _, _ =>
      deployedImpl <- call (deployProxyImpl hre ImplFactory opts) ;;
      Ret (fst deployedImpl, snd deployedImpl)
  end.

(** Lines 74 to 81. *)
Definition warnAboutAdmin (manifest : Manifest) (kind : ProxyKind) : Prog unit :=
  match kind with
  | uups =>
      admin <- call (manifest_getAdmin manifest) ;;
      match admin with
      | Some _ =>
          call (logWarning "A proxy admin was previously deployed on this network"
                  [ "This is not natively used with the current kind of proxy ('uups').";
                    "Changes to the admin will have no effect on this new proxy." ])
      | None => Ret tt
      end
  | _ => Ret tt
  end.

(** Lines 83 to 107: the proxy factory, its constructor arguments and their
    ABI types. *)
Definition dispatchKind (ImplFactory : ContractFactory) (kind : ProxyKind)
    (impl data : string)
  : Prog (ContractFactory * list Value * list string) :=
  match kind with
  | beacon => Throw BeaconProxyUnsupportedError
  | uups =>
      ProxyFactory <- call (getProxyFactory hre (signer ImplFactory)) ;;
      Ret (ProxyFactory, [VString impl; VString data], ["address"; "bytes"])
  | transparent =>
      AdminFactory <- call (getProxyAdminFactory hre (signer ImplFactory)) ;;
      adminAddress <- call (fetchOrDeployAdmin (provider hre) AdminFactory) ;;
      ProxyFactory <- call (getTransparentUpgradeableProxyFactory hre (signer ImplFactory)) ;;
      Ret (ProxyFactory, [VString impl; VString adminAddress; VString data],
           ["address"; "address"; "bytes"])
  end.

(** Lines 109 to 126: ordinary or deterministic creation of the proxy. *)
Definition createProxy (opts : DeployProxyOptions) (kind : ProxyKind)
    (ProxyFactory : ContractFactory)
    (proxyFactoryArgs : list Value) (proxyFactoryConstructorArgTypes : list string)
  : Prog ProxyDeployment :=
  match deployFactory opts, deployFactorySalt opts with
  | Some factory, Some salt =>
      let bytecode := bytecode ProxyFactory in
      d <- deployContract salt factory bytecode
             (Some proxyFactoryConstructorArgTypes) (Some proxyFactoryArgs) ;;
      Ret (Object_assign_kind kind d)
  | _, _ =>
      d <- call (deploy ProxyFactory proxyFactoryArgs) ;;
      Ret (Object_assign_kind kind d)
  end.

Definition deployProxy (ImplFactory : ContractFactory)
    (args : option ArgsOrOpts) (opts : option DeployProxyOptions)
  : Prog ContractInstance :=
  let '(args, opts) := normalize args opts in
  manifest <- call (Manifest_forNetwork (provider hre)) ;;
  ik <- deployImplementation ImplFactory opts ;;
  let impl := fst ik in
  let kind := snd ik in
  let contractInterface := interface ImplFactory in
  data <- lift (getInitializerData contractInterface args (initializer opts)) ;;
  warnAboutAdmin manifest kind ;;
  pf <- dispatchKind ImplFactory kind impl data ;;
  let ProxyFactory := fst (fst pf) in
  let proxyFactoryArgs := snd (fst pf) in
  let proxyFactoryConstructorArgTypes := snd pf in
  proxyDeployment <- createProxy opts kind ProxyFactory
                       proxyFactoryArgs proxyFactoryConstructorArgTypes ;;
  call (manifest_addProxy manifest proxyDeployment) ;;
  let inst := attach ImplFactory (pd_address proxyDeployment) in
  Ret (set_deployTransaction inst (pd_deployTransaction proxyDeployment)).

End Plugin.

(* ================================================================== *)
(** ** Instances used to evaluate the model on concrete inputs *)

(** The ABI coder for the types the proxy constructors take. *)
Module Abi.

Definition word (n : N) : list byte := rev (Keccak.le_bytes 32 n).

Definition pad_left (bs : list byte) : list byte :=
  repeat x00 (32 - List.length bs) ++ bs.

Definition pad_right (bs : list byte) : list byte :=
  bs ++ repeat x00 ((32 - List.length bs mod 32) mod 32).

Inductive Encoded : Type :=
| Static (w : list byte)
| Dynamic (body : list byte).

Definition encode_one (type : string) (v : Value) : option Encoded :=
  if String.eqb type "address" then
    match v with
    | VString s =>
        match Hex.arrayify s with
        | Some bs => if (List.length bs =? 20)%nat then Some (Static (pad_left bs)) else None
        | None => None
        end
    | _ => None
    end
  else if String.eqb type "bytes" then
    match v with
    | VString s =>
        match Hex.arrayify s with
        | Some bs => Some (Dynamic (word (N.of_nat (List.length bs)) ++ pad_right bs))
        | None => None
        end
    | _ => None
    end
  else if String.eqb type "uint256" then
    match v with
    | VNumber z => if (0 <=? z)%Z then Some (Static (word (Z.to_N z))) else None
    | _ => None
    end
  else None.

Fixpoint encode_all (types : list string) (values : list Value) : option (list Encoded) :=
  match types, values with
  | [], [] => Some []
  | t :: ts, v :: vs =>
      match encode_one t v, encode_all ts vs with
      | Some e, Some es => Some (e :: es)
      | _, _ => None
      end
  | _, _ => None
  end.

(** Heads and tails: a dynamic value leaves its offset in the head. *)
Fixpoint layout (es : list Encoded) (offset : nat) : list byte * list byte :=
  match es with
  | [] => ([], [])
  | Static w :: es' =>
      let ht := layout es' offset in (w ++ fst ht, snd ht)
  | Dynamic body :: es' =>
      let ht := layout es' (offset + List.length body) in
      (word (N.of_nat offset) ++ fst ht, body ++ snd ht)
  end.

Definition encode (types : list string) (values : list Value) : option string :=
  match encode_all types values with
  | Some es =>
      let ht := layout es (32 * List.length es) in
      Some (Hex.hexlify (fst ht ++ snd ht))
  | None => None
  end.

End Abi.

(** The collaborators outside the two source files (getInitializerData,
    deployProxyImpl, deploy, the proxy factories, fetchOrDeployAdmin, the
    Manifest, logWarning and the chain behind the create2 factory), as
    sections 3, 4.2, 4.3 and 4.5 of the specification describe them. *)
Module Reference.

Definition keccak_256 := Keccak.keccak_256.
Definition abi_encode := Abi.encode.

Definition signature (f : string * list string) : string :=
  (fst f ++ "(" ++ String.concat "," (snd f) ++ ")")%string.

Fixpoint find_fragment (name : string) (fs : list (string * list string))
  : option (string * list string) :=
  match fs with
  | [] => None
  | f :: fs' => if String.eqb (fst f) name then Some f else find_fragment name fs'
  end.

(** Modelled from the spec: getInitializerData of ./utils (section 4.5), the
    initializer call data from the interface, the arguments and the chosen
    initializer name; no data when the initializer is disabled. *)
Definition getInitializerData (i : Interface) (args : list Value)
    (init : option Initializer) : option string :=
  match init with
  | Some InitializerDisabled => Some "0x"
  | _ =>
      let name := match init with Some (InitializerName n) => n | _ => "initialize" end in
      match find_fragment name (fragments i) with
      | Some f =>
          match Abi.encode (snd f) args with
          | Some e =>
              Some (String.substring 0 10 (id keccak_256 (signature f))
                    ++ JsString.slice 2 e)%string
          | None => None
          end
      | None =>
          match init, args with
          | None, [] => Some "0x"
          | _, _ => None
          end
      end
  end.

(** Modelled from the spec: the persisted state of the Manifest (sections 3
    and 6), with the implementations keyed by the hash of their bytecode. *)
Record ManifestData : Type :=
  { admin : option Deployment;
    impls : list (string * Deployment);
    proxies : list ProxyDeployment }.

(** Modelled from the spec: what the collaborators act on, the manifest and
    the chain. *)
Record World : Type :=
  { manifest : ManifestData;
    (** addresses that hold code *)
    chain : list string;
    (** hashes of the transactions submitted so far, oldest first *)
    submitted : list string;
    (** hashes of the transactions whose confirmation was awaited *)
    confirmed : list string;
    warnings : list string;
    (** creation bytecodes whose constructor reverts *)
    reverting : list string }.

Definition empty_manifest : ManifestData :=
  {| admin := None; impls := []; proxies := [] |}.

Definition genesis : World :=
  {| manifest := empty_manifest; chain := []; submitted := [];
     confirmed := []; warnings := []; reverting := [] |}.

Definition mem (s : string) (l : list string) : bool :=
  existsb (String.eqb s) l.

Fixpoint lookup (k : string) (l : list (string * Deployment)) : option Deployment :=
  match l with
  | [] => None
  | (k', d) :: l' => if String.eqb k k' then Some d else lookup k l'
  end.

Definition fresh_hash (w : World) : string :=
  Hex.hexlify (Abi.word (N.of_nat (S (List.length (submitted w))))).

(** The address of an ordinary creation: taken from the count of
    transactions, which stands for the sender's nonce. *)
Definition fresh_address (w : World) : string :=
  Hex.hexlify (skipn 12 (keccak_256 (Abi.word (N.of_nat (List.length (submitted w)))))).

Definition with_manifest (w : World) (m : ManifestData) : World :=
  {| manifest := m; chain := chain w; submitted := submitted w;
     confirmed := confirmed w; warnings := warnings w; reverting := reverting w |}.

(** Modelled from the spec: the submission of a creation transaction for
    [code] at [addr] (section 4.2); it reverts when the constructor does or
    when the address already holds code. *)
Definition create (code addr : string) (w : World) : (Error + Deployment) * World :=
  if mem code (reverting w) then (inl (Rejected "constructor reverted"), w)
  else if mem addr (chain w) then (inl (Rejected "address already holds code"), w)
  else
    let tx := {| hash := fresh_hash w |} in
    (inr {| address := addr; txHash := hash tx; deployTransaction := tx |},
     {| manifest := manifest w; chain := addr :: chain w;
        submitted := submitted w ++ [hash tx];
        confirmed := confirmed w; warnings := warnings w;
        reverting := reverting w |}).

Definition ordinary (F : ContractFactory) (w : World) : (Error + Deployment) * World :=
  create (bytecode F) (fresh_address w) w.

Definition ProxyAdmin_bytecode : string := "0x608060405234801561001057600080fdaa".
Definition ERC1967Proxy_bytecode : string := "0x608060405260405161001057600080fdbb".
Definition TransparentUpgradeableProxy_bytecode : string :=
  "0x608060405260405162000010576000fdcc".

Definition artifact (code : string) (s : Signer) : ContractFactory :=
  {| bytecode := code; interface := {| fragments := [] |}; signer := s |}.

(** Modelled from the spec: how each collaborator settles its call.
    deployProxyImpl reuses the implementation recorded for the bytecode or
    deploys and records it, and pairs it with the requested kind, transparent
    by default (sections 3 and 4.5); fetchOrDeployAdmin returns the recorded
    admin or deploys and records one (section 4.3); addProxy appends
    (section 6); the create2 factory deploys at the create2 address. *)
Definition env : Env World :=
  fun X c =>
    match c in Call X return World -> (Error + X) * World with
    | Manifest_forNetwork p => fun w => (inr {| manifest_provider := p |}, w)
    | deployProxyImpl _ F opts => fun w =>
        let k := or_default transparent (kind opts) in
        let key := id keccak_256 (bytecode F) in
        match lookup key (impls (manifest w)) with
        | Some d => (inr (address d, k), w)
        | None =>
            match ordinary F w with
            | (inr d, w') =>
                (inr (address d, k),
                 with_manifest w'
                   {| admin := admin (manifest w');
                      impls := (key, d) :: impls (manifest w');
                      proxies := proxies (manifest w') |})
            | (inl e, w') => (inl e, w')
            end
        end
    | factory_deploy factory code saltHex => fun w =>
        match buildCreate2Address keccak_256 (contract_address factory) saltHex code with
        | Some addr =>
            match create code addr w with
            | (inr d, w') => (inr (deployTransaction d), w')
            | (inl e, w') => (inl e, w')
            end
        | None => (inl (Rejected "invalid creation code"), w)
        end
    | deployTransaction_wait tx => fun w =>
        (inr tt,
         {| manifest := manifest w; chain := chain w; submitted := submitted w;
            confirmed := confirmed w ++ [hash tx]; warnings := warnings w;
            reverting := reverting w |})
    | manifest_getAdmin _ => fun w => (inr (admin (manifest w)), w)
    | logWarning title _ => fun w =>
        (inr tt,
         {| manifest := manifest w; chain := chain w; submitted := submitted w;
            confirmed := confirmed w; warnings := warnings w ++ [title];
            reverting := reverting w |})
    | getProxyFactory _ s => fun w => (inr (artifact ERC1967Proxy_bytecode s), w)
    | getProxyAdminFactory _ s => fun w => (inr (artifact ProxyAdmin_bytecode s), w)
    | getTransparentUpgradeableProxyFactory _ s => fun w =>
        (inr (artifact TransparentUpgradeableProxy_bytecode s), w)
    | fetchOrDeployAdmin _ AdminFactory => fun w =>
        match admin (manifest w) with
        | Some d => (inr (address d), w)
        | None =>
            match ordinary AdminFactory w with
            | (inr d, w') =>
                (inr (address d),
                 with_manifest w'
                   {| admin := Some d;
                      impls := impls (manifest w');
                      proxies := proxies (manifest w') |})
            | (inl e, w') => (inl e, w')
            end
        end
    | deploy F _ => fun w => ordinary F w
    | manifest_addProxy _ proxy => fun w =>
        (inr tt,
         with_manifest w
           {| admin := admin (manifest w);
              impls := impls (manifest w);
              proxies := proxies (manifest w) ++ [proxy] |})
    end.

Definition hardhat : HardhatRuntimeEnvironment :=
  {| provider := {| network := "hardhat" |} |}.

Definition deployer : Signer :=
  {| signer_address := "0xf39fd6e51aad88f6f4ce6ab8827279cfffb92266" |}.

Definition Greeter : ContractFactory :=
  {| bytecode := "0x6080604052348015600f57600080fd5b50";
     interface := {| fragments := [("initialize", ["uint256"])] |};
     signer := deployer |}.

Definition create2Factory : Contract :=
  {| contract_address := "0xFFfFfFffFFfffFFfFFfFFFFFffFFFffffFfFFFfF" |}.

Definition deployProxy :=
  deployProxy keccak_256 abi_encode getInitializerData hardhat.

End Reference.

(* ================================================================== *)
(** ** Properties of traces *)

(** The run returned, it did not throw. *)
Definition succeeded {A : Type} (r : Error + A) : bool :=
  match r with
  | inr _ => true
  | inl _ => false
  end.

(** The kind that the implementation step returned. *)
Definition returned_kind (r : Error + string * ProxyKind) : option ProxyKind :=
  match r with
  | inr ik => Some (snd ik)
  | inl _ => None
  end.

(** The promise of the call was resolved, not rejected. *)
Definition resolved (ev : Event) : bool :=
  match ev with
  | Ev _ (inr _) => true
  | Ev _ (inl _) => false
  end.

(** [factory.deploy(bytecode, saltHex)] on the create2 factory. *)
Definition is_factory_deploy (ev : Event) : bool :=
  match ev with
  | Ev c _ => match c with factory_deploy _ _ _ => true | _ => false end
  end.

(** [deploy(factory, ...args)], the ordinary creation. *)
Definition is_deploy (ev : Event) : bool :=
  match ev with
  | Ev c _ => match c with deploy _ _ => true | _ => false end
  end.

(** A creation transaction went out: a resolved [factory.deploy] or
    [deploy]. *)
Definition submits_transaction (ev : Event) : bool :=
  resolved ev && (is_factory_deploy ev || is_deploy ev).

Definition is_addProxy (ev : Event) : bool :=
  match ev with
  | Ev c _ => match c with manifest_addProxy _ _ => true | _ => false end
  end.

Definition is_logWarning (ev : Event) : bool :=
  match ev with
  | Ev c _ => match c with logWarning _ _ => true | _ => false end
  end.

(** The calls through which an admin is obtained. *)
Definition is_admin_provisioning (ev : Event) : bool :=
  match ev with
  | Ev c _ =>
      match c with
      | fetchOrDeployAdmin _ _ => true
      | getProxyAdminFactory _ _ => true
      | _ => false
      end
  end.

(** The proxy an event appends to the manifest, if it is an append. *)
Definition appended (ev : Event) : option ProxyDeployment :=
  match ev with
  | Ev c _ => match c with manifest_addProxy _ proxy => Some proxy | _ => None end
  end.

(** [ev] is the resolved call that submitted the creation transaction of
    [proxy]. *)
Definition creates (proxy : ProxyDeployment) (ev : Event) : Prop :=
  match ev with
  | Ev c (inr x) =>
      match c in Call X return X -> Prop with
      | deploy _ _ => fun d => proxy = Object_assign_kind (pd_kind proxy) d
      | factory_deploy _ _ _ => fun tx =>
          pd_deployTransaction proxy = tx /\ pd_txHash proxy = hash tx
      | _ => fun _ => False
      end x
  | Ev _ (inl _) => False
  end.

(** Every append to the manifest is the last call of the trace and comes
    directly after the call that submitted the proxy's creation. *)
Fixpoint append_follows_creation (previous : option Event) (tr : list Event) : Prop :=
  match tr with
  | [] => True
  | ev :: tr' =>
      match appended ev with
      | Some proxy =>
          tr' = [] /\ match previous with
                      | Some ev' => creates proxy ev'
                      | None => False
                      end
      | None => append_follows_creation (Some ev) tr'
      end
  end.

(** The confirmation of [tx] was awaited, and came. *)
Definition awaits_confirmation (tx : TransactionResponse) (ev : Event) : bool :=
  match ev with
  | Ev c (inr _) =>
      match c with
      | deployTransaction_wait tx' => String.eqb (hash tx') (hash tx)
      | _ => false
      end
  | Ev _ (inl _) => false
  end.

(** Every proxy is appended only after the confirmation of its creation
    transaction was awaited ([seen]: the events so far, newest first). *)
Fixpoint appends_only_confirmed (seen tr : list Event) : bool :=
  match tr with
  | [] => true
  | ev :: tr' =>
      match appended ev with
      | Some proxy => existsb (awaits_confirmation (pd_deployTransaction proxy)) seen
      | None => true
      end && appends_only_confirmed (ev :: seen) tr'
  end.

(** No [manifest.getAdmin()] of the trace found the admin absent. *)
Definition admin_reported (ev : Event) : bool :=
  match ev with
  | Ev c (inr x) =>
      match c in Call X return X -> bool with
      | manifest_getAdmin _ => fun admin =>
          match admin with Some _ => true | None => false end
      | _ => fun _ => true
      end x
  | Ev _ (inl _) => true
  end.

(** A [factory.deploy] of the trace carries the creation code [code]. *)
Definition deploys_code (code : string) (ev : Event) : Prop :=
  match ev with
  | Ev c _ => match c with factory_deploy _ code' _ => code' = code | _ => True end
  end.

(** Modelled from the spec: the kind that deployProxyImpl of ./utils (not
    among the sources) pairs with the implementation address: the requested
    one, transparent by default (section 3, DeployOptions). *)
Definition deployProxyImpl_kind (opts : DeployProxyOptions) : ProxyKind :=
  or_default transparent (kind opts).

Definition resolves_kind_as_specified {W : Type} (env : Env W) : Prop :=
  forall hre F opts (w : W) r w',
    env _ (deployProxyImpl hre F opts) w = (inr r, w') ->
    snd r = deployProxyImpl_kind opts.

(** The deterministic path is taken: both options are present. *)
Definition deterministic (opts : DeployProxyOptions) : bool :=
  match deployFactory opts, deployFactorySalt opts with
  | Some _, Some _ => true
  | _, _ => false
  end.

(** The kind a call with options [opts] resolves: on the deterministic path
    the requested one, uups by default (line 42); otherwise the one
    deployProxyImpl answers, taken to be as specified. *)
Definition resolves_to {W : Type} (env : Env W) (opts : DeployProxyOptions) (k : ProxyKind)
  : Prop :=
  if deterministic opts then or_default uups (kind opts) = k
  else resolves_kind_as_specified env /\ deployProxyImpl_kind opts = k.

(** The library functions of a deterministic call accept their arguments.
    [getCreate2Address] throws when the ABI coder rejects the constructor
    arguments or ethers rejects a hex string; these say that it does not, for
    the implementation, and for the uups proxy created by whichever factory
    [getProxyFactory] answers. *)
Definition implementation_address_defined
    (keccak_256 : list byte -> list byte)
    (abi_encode : list string -> list Value -> option string)
    (ImplFactory : ContractFactory) (opts : DeployProxyOptions) : Prop :=
  forall factory salt,
    deployFactory opts = Some factory ->
    deployFactorySalt opts = Some salt ->
    getCreate2Address keccak_256 abi_encode (contract_address factory) salt
      (bytecode ImplFactory) (Some []) (Some []) <> None.

Definition uups_proxy_address_defined
    (keccak_256 : list byte -> list byte)
    (abi_encode : list string -> list Value -> option string)
    (getInitializerData : Interface -> list Value -> option Initializer -> option string)
    (hre : HardhatRuntimeEnvironment) {W : Type} (env : Env W)
    (ImplFactory : ContractFactory) (args : list Value) (opts : DeployProxyOptions) : Prop :=
  forall factory salt impl data ProxyFactory w w',
    deployFactory opts = Some factory ->
    deployFactorySalt opts = Some salt ->
    getCreate2Address keccak_256 abi_encode (contract_address factory) salt
      (bytecode ImplFactory) (Some []) (Some []) = Some impl ->
    getInitializerData (interface ImplFactory) args (initializer opts) = Some data ->
    env _ (getProxyFactory hre (signer ImplFactory)) w = (inr ProxyFactory, w') ->
    getCreate2Address keccak_256 abi_encode (contract_address factory) salt
      (bytecode ProxyFactory) (Some ["address"; "bytes"])
      (Some [VString impl; VString data]) <> None.

(** The proxy factory and the constructor arguments an ordinary creation
    ([ProxyFactory.deploy(...args)]) is called with, if the event is one. *)
Definition deploy_request (ev : Event) : option (ContractFactory * list Value) :=
  match ev with
  | Ev c _ =>
      match c with
      | deploy ProxyFactory values => Some (ProxyFactory, values)
      | _ => None
      end
  end.

(** The creation codes the [factory.deploy] calls of a trace carry, in
    order. *)
Definition factory_deploy_codes (tr : list Event) : list string :=
  flat_map (fun ev =>
              match ev with
              | Ev c _ => match c with factory_deploy _ code _ => [code] | _ => [] end
              end) tr.

(** The dispatch on the kind, lines 87 to 107, as seen in the trace [tr] of
    a call: for uups the proxy factory is the answer of [getProxyFactory],
    no admin is provisioned and the constructor takes (implementation,
    initializer data); for transparent the admin address is the answer of
    [fetchOrDeployAdmin] for the factory [getProxyAdminFactory] answered, the
    proxy factory that of [getTransparentUpgradeableProxyFactory], and the
    constructor takes (implementation, admin, initializer data). *)
Definition dispatched (hre : HardhatRuntimeEnvironment) (ImplFactory : ContractFactory)
    (tr : list Event) (k : ProxyKind) (impl data : string)
    (ProxyFactory : ContractFactory) (values : list Value) (types : list string) : Prop :=
  match k with
  | uups =>
      In (Ev (getProxyFactory hre (signer ImplFactory)) (inr ProxyFactory)) tr
      /\ existsb is_admin_provisioning tr = false
      /\ values = [VString impl; VString data]
      /\ types = ["address"; "bytes"]
  | transparent =>
      exists AdminFactory adminAddress,
        In (Ev (getProxyAdminFactory hre (signer ImplFactory)) (inr AdminFactory)) tr
        /\ In (Ev (fetchOrDeployAdmin (provider hre) AdminFactory) (inr adminAddress)) tr
        /\ In (Ev (getTransparentUpgradeableProxyFactory hre (signer ImplFactory))
                 (inr ProxyFactory)) tr
        /\ values = [VString impl; VString adminAddress; VString data]
        /\ types = ["address"; "address"; "bytes"]
  | beacon => False
  end.

(** *** Inputs on which the model is evaluated *)

Module Inputs.

Definition deterministic_options (k : option ProxyKind) : DeployProxyOptions :=
  {| kind := k; initializer := None; unsafeAllow := None;
     deployFactory := Some Reference.create2Factory;
     deployFactorySalt := Some (SaltString "test") |}.

Definition ordinary_options (k : option ProxyKind) : DeployProxyOptions :=
  {| kind := k; initializer := None; unsafeAllow := None;
     deployFactory := None; deployFactorySalt := None |}.

Definition forty_two : option ArgsOrOpts := Some (ArgsArray [VNumber 42]).

(** A raw 32-byte salt, handed over as the hex string of its bytes. *)
Definition raw_salt : string :=
  "0x0000000000000000000000000000000000000000000000000000000000000000".

(** A world whose manifest already records an admin. *)
Definition with_admin : Reference.World :=
  Reference.with_manifest Reference.genesis
    {| Reference.admin :=
         Some {| address := "0x5fbdb2315678afecb367f032d93f642f64180aa3";
                 txHash := Hex.hexlify (Abi.word 77);
                 deployTransaction := {| hash := Hex.hexlify (Abi.word 77) |} |};
       Reference.impls := [];
       Reference.proxies := [] |}.

(** A world in which the constructor of the transparent proxy reverts. *)
Definition proxy_reverts : Reference.World :=
  {| Reference.manifest := Reference.empty_manifest;
     Reference.chain := [];
     Reference.submitted := [];
     Reference.confirmed := [];
     Reference.warnings := [];
     Reference.reverting := [Reference.TransparentUpgradeableProxy_bytecode] |}.

End Inputs.

(* ================================================================== *)
(** ** Further properties of traces *)

(** The functions the awaited calls are calls of. *)
Module Name.

Inductive t : Type :=
| Manifest_forNetwork
| deployProxyImpl
| factory_deploy
| deployTransaction_wait
| manifest_getAdmin
| logWarning
| getProxyFactory
| getProxyAdminFactory
| getTransparentUpgradeableProxyFactory
| fetchOrDeployAdmin
| deploy
| manifest_addProxy.

End Name.

Definition name_of (ev : Event) : Name.t :=
  match ev with
  | Ev c _ =>
      match c with
      | Manifest_forNetwork _ => Name.Manifest_forNetwork
      | deployProxyImpl _ _ _ => Name.deployProxyImpl
      | factory_deploy _ _ _ => Name.factory_deploy
      | deployTransaction_wait _ => Name.deployTransaction_wait
      | manifest_getAdmin _ => Name.manifest_getAdmin
      | logWarning _ _ => Name.logWarning
      | getProxyFactory _ _ => Name.getProxyFactory
      | getProxyAdminFactory _ _ => Name.getProxyAdminFactory
      | getTransparentUpgradeableProxyFactory _ _ =>
          Name.getTransparentUpgradeableProxyFactory
      | fetchOrDeployAdmin _ _ => Name.fetchOrDeployAdmin
      | deploy _ _ => Name.deploy
      | manifest_addProxy _ _ => Name.manifest_addProxy
      end
  end.

(** The calls of a complete run of [deployProxy], in the order in which
    deploy-proxy.ts makes them: for the path taken ([det]: the deterministic
    one), the kind resolved and whether the admin warning is logged. *)
Definition calls_in_order (det : bool) (k : ProxyKind) (warned : bool) : list Name.t :=
  [Name.Manifest_forNetwork]
  ++ (if det then [Name.factory_deploy; Name.deployTransaction_wait]
      else [Name.deployProxyImpl])
  ++ match k with
     | uups => Name.manifest_getAdmin :: (if warned then [Name.logWarning] else [])
     | _ => []
     end
  ++ match k with
     | beacon => []
     | uups => [Name.getProxyFactory]
     | transparent =>
         [ Name.getProxyAdminFactory; Name.fetchOrDeployAdmin;
           Name.getTransparentUpgradeableProxyFactory ]
     end
  ++ match k with
     | beacon => []
     | _ => [if det then Name.factory_deploy else Name.deploy; Name.manifest_addProxy]
     end.

(** [l] is an initial segment of [l']. *)
Definition initial_segment {A : Type} (l l' : list A) : Prop :=
  firstn (List.length l) l' = l.

(** The kind deployProxyImpl resolved to, if the event is such a call. *)
Definition answered_kind (ev : Event) : option ProxyKind :=
  match ev with
  | Ev c (inr x) =>
      match c in Call X return X -> option ProxyKind with
      | deployProxyImpl _ _ _ => fun ik => Some (snd ik)
      | _ => fun _ => None
      end x
  | Ev _ (inl _) => None
  end.



Definition is_getAdmin (ev : Event) : bool :=
  match ev with
  | Ev c _ => match c with manifest_getAdmin _ => true | _ => false end
  end.

(** No [manifest.getAdmin()] of the trace found an admin. *)
Definition admin_unreported (ev : Event) : bool :=
  match ev with
  | Ev c (inr x) =>
      match c in Call X return X -> bool with
      | manifest_getAdmin _ => fun admin =>
          match admin with Some _ => false | None => true end
      | _ => fun _ => true
      end x
  | Ev _ (inl _) => true
  end.



(** The last call of a trace. *)
Fixpoint last_call (tr : list Event) : option Event :=
  match tr with
  | [] => None
  | ev :: tr' => match tr' with [] => Some ev | _ :: _ => last_call tr' end
  end.

(** Further inputs on which the model is evaluated. *)
Module Cases.

(** The factory address of the reference world without its [0x]. *)
Definition bare_factory : string := "ffffffffffffffffffffffffffffffffffffffff".

(** An address with the capitals of its checksum, and in lower case. *)
Definition checksummed : string := "0x5FbDB2315678afecb367f032d93F642f64180aa3".
Definition lower_case : string := "0x5fbdb2315678afecb367f032d93f642f64180aa3".


End Cases.

(* ================================================================== *)
(** ** Facts about hex strings *)

Module HexFacts.
Import Hex JsString.

Lemma parse_hex_of_byte (b : byte) (rest : string) :
  parse_hex (hex_of_byte b rest) = option_map (cons b) (parse_hex rest).
Proof.
  unfold hex_of_byte; cbn [parse_hex].
  destruct (parse_hex rest) as [bs|]; destruct b; reflexivity.
Qed.

Lemma parse_hex_of_bytes (bs : list byte) : parse_hex (hex_of_bytes bs) = Some bs.
Proof.
  induction bs as [|b bs IH]; [reflexivity|].
  cbn [hex_of_bytes fold_right]. fold (hex_of_bytes bs).
  now rewrite parse_hex_of_byte, IH.
Qed.

Lemma arrayify_hexlify (bs : list byte) : arrayify (hexlify bs) = Some bs.
Proof. exact (parse_hex_of_bytes bs). Qed.

Lemma arrayify_inv (s : string) (bs : list byte) :
  arrayify s = Some bs ->
  exists digits, s = ("0x" ++ digits)%string /\ parse_hex digits = Some bs.
Proof.
  destruct s as [|c1 [|c2 digits]]; try discriminate.
  - destruct c1 as [[] [] [] [] [] [] [] []]; discriminate.
  - intros H.
    destruct c1 as [[] [] [] [] [] [] [] []]; try discriminate H.
    destruct c2 as [[] [] [] [] [] [] [] []]; try discriminate H.
    exists digits. split; [reflexivity | exact H].
Qed.

Lemma parse_hex_app (s1 s2 : string) (b1 b2 : list byte) :
  parse_hex s1 = Some b1 -> parse_hex s2 = Some b2 ->
  parse_hex (s1 ++ s2) = Some (b1 ++ b2).
Proof.
  revert s1. induction b1 as [|b b1 IH]; intros s1 H1 H2.
  - destruct s1 as [|c1 [|c2 rest]]; [exact H2 | discriminate |].
    cbn [parse_hex] in H1.
    destruct (char_nibble c1), (char_nibble c2), (parse_hex rest); discriminate.
  - destruct s1 as [|c1 [|c2 rest]]; try discriminate.
    cbn [parse_hex String.append] in *.
    destruct (char_nibble c1) as [h|]; try discriminate.
    destruct (char_nibble c2) as [l|]; try discriminate.
    destruct (parse_hex rest) as [bs|] eqn:Erest; try discriminate.
    injection H1 as Hb Hbs. subst bs.
    rewrite (IH rest Erest H2). now rewrite <- Hb.
Qed.

Lemma hex_of_bytes_app (a b : list byte) :
  hex_of_bytes (a ++ b) = (hex_of_bytes a ++ hex_of_bytes b)%string.
Proof.
  induction a as [|x a IH]; [reflexivity|].
  cbn [hex_of_bytes fold_right List.app]. fold (hex_of_bytes (a ++ b)). fold (hex_of_bytes a).
  now rewrite IH.
Qed.

Lemma length_hex_of_bytes (bs : list byte) :
  String.length (hex_of_bytes bs) = 2 * List.length bs.
Proof.
  induction bs as [|b bs IH]; [reflexivity|].
  cbn [hex_of_bytes fold_right]. fold (hex_of_bytes bs).
  cbn [hex_of_byte String.length List.length]. lia.
Qed.

Lemma slice_hex_of_bytes (n : nat) (bs : list byte) :
  slice (2 * n) (hex_of_bytes bs) = hex_of_bytes (skipn n bs).
Proof.
  revert bs. induction n as [|n IH]; intros bs; [reflexivity|].
  destruct bs as [|b bs]; [reflexivity|].
  replace (2 * S n) with (S (S (2 * n))) by lia.
  cbn [hex_of_bytes fold_right hex_of_byte slice skipn]. apply IH.
Qed.

(** The last forty digits of a 32-byte digest are its low-order 20 bytes. *)
Lemma slice_last_digest (bs : list byte) :
  List.length bs = 32 ->
  slice_last 40 (hexlify bs) = hex_of_bytes (skipn 12 bs).
Proof.
  intros Hlen. unfold slice_last, hexlify.
  cbn [String.append String.length]. rewrite length_hex_of_bytes, Hlen.
  change (S (S (2 * 32)) - 40) with (S (S (2 * 12))).
  cbn [slice]. apply slice_hex_of_bytes.
Qed.

Lemma lower_nibble_char (n : N) : lower_char (nibble_char n) = nibble_char n.
Proof.
  destruct n as [|p]; [reflexivity|].
  do 4 (destruct p as [p|p|]; try reflexivity).
Qed.

Lemma toLowerCase_hex_of_bytes (bs : list byte) :
  toLowerCase (hex_of_bytes bs) = hex_of_bytes bs.
Proof.
  induction bs as [|b bs IH]; [reflexivity|].
  cbn [hex_of_bytes fold_right]. fold (hex_of_bytes bs).
  unfold hex_of_byte. cbn [toLowerCase].
  now rewrite !lower_nibble_char, IH.
Qed.

Lemma toLowerCase_hexlify (bs : list byte) : toLowerCase (hexlify bs) = hexlify bs.
Proof.
  unfold hexlify. cbn [String.append toLowerCase].
  now rewrite toLowerCase_hex_of_bytes.
Qed.

Lemma replace_0x_prefixed (s : string) : replace_0x ("0x" ++ s) = s.
Proof. reflexivity. Qed.

End HexFacts.

(** The digest of the instance is 32 bytes long. *)
Module KeccakFacts.
Import Keccak.

Lemma length_round (A : list N) (rc : N) : List.length (round A rc) = 25.
Proof.
  unfold round, chi.
  destruct (map _ (seq 0 25)) as [|a t] eqn:E.
  - discriminate E.
  - apply (f_equal (@List.length N)) in E.
    rewrite length_map, length_seq in E. cbn [iota List.length] in *. now symmetry.
Qed.

Lemma length_rounds (rcs : list N) (A : list N) :
  List.length A = 25 -> List.length (fold_left round rcs A) = 25.
Proof.
  revert A. induction rcs as [|rc rcs IH]; intros A HA; [exact HA|].
  cbn [fold_left]. apply IH, length_round.
Qed.

Lemma length_xor_block (A : list N) (block : list byte) :
  List.length (xor_block A block) = 25.
Proof. unfold xor_block. now rewrite length_map, length_seq. Qed.

Lemma length_absorb (bs buf : list byte) (A : list N) :
  List.length (absorb A buf bs) = 25.
Proof.
  revert A buf. induction bs as [|b bs IH]; intros A buf; cbn [absorb].
  - apply length_rounds, length_xor_block.
  - destruct (_ =? rate)%nat; apply IH.
Qed.

Lemma length_le_bytes (n : nat) (v : N) : List.length (le_bytes n v) = n.
Proof.
  revert v. induction n as [|n IH]; intros v; [reflexivity|].
  cbn [le_bytes List.length]. now rewrite IH.
Qed.

Lemma length_keccak_256 (bs : list byte) : List.length (keccak_256 bs) = 32.
Proof.
  unfold keccak_256, squeeze.
  pose proof (length_absorb bs [] (repeat 0%N 25)) as H.
  destruct (absorb (repeat 0%N 25) [] bs) as [|a0 [|a1 [|a2 [|a3 t]]]];
    try discriminate H.
  cbn [firstn flat_map]. rewrite !length_app, !length_le_bytes. reflexivity.
Qed.

End KeccakFacts.

(* ================================================================== *)
(** ** Facts about programs *)

Lemma run_bind {W A B : Type} (env : Env W) (p : Prog A) (f : A -> Prog B) (w : W) :
  run env (bind p f) w =
  match run env p w with
  | (tr, inl e, w') => (tr, inl e, w')
  | (tr, inr a, w') =>
      match run env (f a) w' with
      | (tr', r, w'') => (tr ++ tr', r, w'')
      end
  end.
Proof.
  revert w. induction p as [a|e|X c k IH]; intros w; cbn [bind run].
  - now destruct (run env (f a) w) as [[tr r] w'].
  - reflexivity.
  - destruct (env X c w) as [[e|x] w']; [reflexivity|].
    rewrite IH.
    destruct (run env (k x) w') as [[tr [e|a]] w'']; [reflexivity|].
    now destruct (run env (f a) w'') as [[tr' r] w3].
Qed.

(** A synchronous computation awaits nothing and leaves the world alone. *)
Lemma run_lift {W A : Type} (env : Env W) (o : option A) (w : W) :
  run env (lift o) w
  = ([], match o with Some a => inr a | None => inl LibraryError end, w).
Proof. now destruct o. Qed.

Lemma run_eta {W A : Type} (env : Env W) (p : Prog A) (w : W) :
  run env p w = (trace env p w, outcome env p w, final env p w).
Proof. unfold trace, outcome, final. now destruct (run env p w) as [[tr r] w']. Qed.

(* ================================================================== *)
(** ** The deterministic address *)

Section AddressFacts.

Variable keccak_256 : list byte -> list byte.
Variable abi_encode : list string -> list Value -> option string.
Hypothesis keccak_256_length : forall bs, List.length (keccak_256 bs) = 32.

Lemma keccak256_hex (digits : string) (bs : list byte) :
  Hex.parse_hex digits = Some bs ->
  keccak256 keccak_256 ("0x" ++ digits) = Some (Hex.hexlify (keccak_256 bs)).
Proof.
  intros H. unfold keccak256. cbn [String.append Hex.arrayify]. now rewrite H.
Qed.

(** [buildCreate2Address] on well-formed hex data. *)
Lemma buildCreate2Address_bytes (factoryAddress saltHex byteCode : string)
    (factory salt code : list byte) :
  Hex.arrayify factoryAddress = Some factory ->
  Hex.arrayify saltHex = Some salt ->
  Hex.arrayify byteCode = Some code ->
  buildCreate2Address keccak_256 factoryAddress saltHex byteCode
  = Some (Hex.hexlify
            (skipn 12 (keccak_256 ([xff] ++ factory ++ salt ++ keccak_256 code)))).
Proof.
  intros Hf Hs Hc.
  apply HexFacts.arrayify_inv in Hf as (fd & -> & Hf).
  apply HexFacts.arrayify_inv in Hs as (sd & -> & Hs).
  apply HexFacts.arrayify_inv in Hc as (cd & -> & Hc).
  unfold buildCreate2Address.
  rewrite (keccak256_hex cd code Hc).
  cbn [map JsString.join fold_right].
  unfold Hex.hexlify at 1. rewrite !HexFacts.replace_0x_prefixed.
  change (JsString.replace_0x "ff") with "ff".
  assert (Hcat : Hex.parse_hex
                   ("ff" ++ fd ++ sd ++ Hex.hex_of_bytes (keccak_256 code) ++ "")
                 = Some ([xff] ++ factory ++ salt ++ keccak_256 code)).
  { replace (keccak_256 code) with (keccak_256 code ++ []) at 2 by apply app_nil_r.
    apply (HexFacts.parse_hex_app "ff" _ [xff]); [reflexivity|].
    apply HexFacts.parse_hex_app; [exact Hf|].
    apply HexFacts.parse_hex_app; [exact Hs|].
    apply HexFacts.parse_hex_app; [apply HexFacts.parse_hex_of_bytes | reflexivity]. }
  rewrite (keccak256_hex _ _ Hcat).
  rewrite HexFacts.slice_last_digest by apply keccak_256_length.
  f_equal. apply (HexFacts.toLowerCase_hexlify (skipn 12 _)).
Qed.

Lemma arrayify_saltToHex (salt : Salt) :
  Hex.arrayify (saltToHex keccak_256 salt)
  = Some (keccak_256 (Hex.toUtf8Bytes (salt_toString salt))).
Proof. apply HexFacts.arrayify_hexlify. Qed.

Lemma buildBytecode_bytes (types : list string) (args : list Value)
    (contractBytecode encoded : string) (code enc : list byte) :
  Hex.arrayify contractBytecode = Some code ->
  abi_encode types args = Some encoded ->
  Hex.arrayify encoded = Some enc ->
  exists byteCode,
    buildBytecode abi_encode types args contractBytecode = Some byteCode
    /\ Hex.arrayify byteCode = Some (code ++ enc).
Proof.
  intros Hc He Ha.
  apply HexFacts.arrayify_inv in Hc as (cd & -> & Hc).
  apply HexFacts.arrayify_inv in Ha as (ed & -> & Ha).
  unfold buildBytecode, encodeParams. rewrite He.
  eexists; split; [reflexivity|].
  cbn [JsString.slice String.append Hex.arrayify].
  now apply HexFacts.parse_hex_app.
Qed.

End AddressFacts.

(** C1. For every factory address, salt, creation bytecode, constructor types
    and constructor arguments that are well formed (the address and the
    bytecode are hex strings, the ABI coder accepts the arguments and returns
    hex data), [getCreate2Address] returns the hex string of the low-order 20
    bytes of the hash of: the byte 0xff, the factory address, the hash of the
    salt's string representation, and the hash of the init code, which is the
    bytecode followed by the encoded constructor arguments.  It is a function
    of its arguments and awaits nothing: run as part of a program it adds no
    call to the trace and leaves the world as it is. *)
Theorem getCreate2Address_low_order_20_bytes :
  forall (keccak_256 : list byte -> list byte)
         (abi_encode : list string -> list Value -> option string)
         (factoryAddress : string) (salt : Salt) (contractBytecode : string)
         (constructorTypes : option (list string))
         (constructorArgs : option (list Value))
         (factory code : list byte) (encoded : string) (args : list byte),
    (forall bs, List.length (keccak_256 bs) = 32) ->
    Hex.arrayify factoryAddress = Some factory ->
    Hex.arrayify contractBytecode = Some code ->
    abi_encode (or_default [] constructorTypes) (or_default [] constructorArgs)
      = Some encoded ->
    Hex.arrayify encoded = Some args ->
    let initCode := code ++ args in
    let salt32 := keccak_256 (Hex.toUtf8Bytes (salt_toString salt)) in
    let digest := keccak_256 ([xff] ++ factory ++ salt32 ++ keccak_256 initCode) in
    let result :=
      getCreate2Address keccak_256 abi_encode factoryAddress salt contractBytecode
        constructorTypes constructorArgs in
    result = Some (Hex.hexlify (skipn 12 digest))
    /\ List.length (skipn 12 digest) = 20
    /\ (forall (W : Type) (env : Env W) (w : W),
          run env (lift result) w = ([], inr (Hex.hexlify (skipn 12 digest)), w)).
Proof.
  intros keccak_256 abi_encode factoryAddress salt contractBytecode
    constructorTypes constructorArgs factory code encoded args
    Hlen Hf Hc He Ha initCode salt32 digest result.
  assert (Hres : result = Some (Hex.hexlify (skipn 12 digest))).
  { subst result. unfold getCreate2Address.
    destruct (buildBytecode_bytes abi_encode _ _ _ _ _ _ Hc He Ha) as (byteCode & -> & Hb).
    apply (buildCreate2Address_bytes keccak_256 Hlen); [exact Hf | | exact Hb].
    apply arrayify_saltToHex. }
  repeat split.
  - exact Hres.
  - rewrite length_skipn. subst digest. now rewrite Hlen.
  - intros W env w. now rewrite Hres.
Qed.

Lemma getCreate2Address_low_order_20_bytes_witness :
  getCreate2Address Keccak.keccak_256 Abi.encode
    "0xFFFFFFFFFFFFFFFFFFFFFFFFFFFFFFFFFFFFFFFF" (SaltString "test") "0x00" None None
  = Some "0xd7d6d693b6157e4c97043419813a2ed43a8dface".
Proof.
  exact (proj1 (getCreate2Address_low_order_20_bytes
                  Keccak.keccak_256 Abi.encode
                  "0xFFFFFFFFFFFFFFFFFFFFFFFFFFFFFFFFFFFFFFFF" (SaltString "test") "0x00"
                  None None (repeat xff 20) [x00] "0x" []
                  KeccakFacts.length_keccak_256 eq_refl eq_refl eq_refl eq_refl)).
Defined.

(** What a run of [deployContract] amounts to. *)
Lemma run_deployContract
    (keccak_256 : list byte -> list byte)
    (abi_encode : list string -> list Value -> option string)
    {W : Type} (env : Env W) (w : W)
    (salt : Salt) (factory : Contract) (contractBytecode : string)
    (constructorTypes : option (list string)) (constructorArgs : option (list Value)) :
  run env (deployContract keccak_256 abi_encode salt factory contractBytecode
             constructorTypes constructorArgs) w
  = match buildBytecode abi_encode (or_default [] constructorTypes)
            (or_default [] constructorArgs) contractBytecode,
          getCreate2Address keccak_256 abi_encode (contract_address factory) salt
            contractBytecode constructorTypes constructorArgs with
    | Some code, Some addr =>
        let c := factory_deploy factory code (saltToHex keccak_256 salt) in
        match env _ c w with
        | (inl e, w') => ([Ev c (inl e)], inl e, w')
        | (inr tx, w') =>
            ([Ev c (inr tx)],
             inr {| address := addr; txHash := hash tx; deployTransaction := tx |}, w')
        end
    | _, _ => ([], inl LibraryError, w)
    end.
Proof.
  unfold deployContract, getCreate2Address.
  destruct constructorTypes as [types|], constructorArgs as [args|]; cbn [or_default];
    (destruct (buildBytecode abi_encode _ _ contractBytecode) as [code|];
     [|reflexivity]);
    cbn [lift bind];
    (destruct (buildCreate2Address keccak_256 _ _ code) as [addr|]; [|reflexivity]);
    cbn [lift bind call run];
    (destruct (env _ _ w) as [[e|tx] w']; reflexivity).
Qed.

(** C4. The [address] field of the deployment that [deployContract] returns
    is the address a standalone [getCreate2Address] computes from the
    factory's address and the same salt, bytecode, constructor types and
    constructor arguments; and [deployContract] does return one whenever that
    address is defined and the factory accepts the creation call. *)
Theorem deployContract_address_is_getCreate2Address :
  forall (keccak_256 : list byte -> list byte)
         (abi_encode : list string -> list Value -> option string)
         (W : Type) (env : Env W) (w : W)
         (salt : Salt) (factory : Contract) (contractBytecode : string)
         (constructorTypes : option (list string))
         (constructorArgs : option (list Value)),
    let standalone :=
      getCreate2Address keccak_256 abi_encode (contract_address factory) salt
        contractBytecode constructorTypes constructorArgs in
    let deployed :=
      outcome env (deployContract keccak_256 abi_encode salt factory contractBytecode
                     constructorTypes constructorArgs) w in
    (forall d, deployed = inr d -> standalone = Some (address d))
    /\ (forall addr,
          standalone = Some addr ->
          (forall code s, exists tx w', env _ (factory_deploy factory code s) w = (inr tx, w')) ->
          exists d, deployed = inr d /\ address d = addr).
Proof.
  intros keccak_256 abi_encode W env w salt factory contractBytecode
    constructorTypes constructorArgs standalone deployed.
  subst deployed. unfold outcome. rewrite run_deployContract. fold standalone.
  destruct (buildBytecode abi_encode _ _ contractBytecode) as [code|] eqn:Ecode.
  - destruct standalone as [addr|].
    + split.
      * intros d. cbv zeta. destruct (env _ _ w) as [[e|tx] w']; cbn; intros H;
          [discriminate H | now injection H as <-].
      * intros a [= <-] Hok. cbv zeta.
        destruct (Hok code (saltToHex keccak_256 salt)) as (tx & w' & ->).
        cbn. eexists. split; reflexivity.
    + split; [intros d H | intros a H]; discriminate H.
  - split; [intros d H; discriminate H|].
    intros a H. exfalso. subst standalone. unfold getCreate2Address in H.
    rewrite Ecode in H. discriminate H.
Qed.

Lemma deployContract_address_is_getCreate2Address_witness :
  exists d,
    outcome Reference.env
      (deployContract Keccak.keccak_256 Abi.encode (SaltString "test")
         Reference.create2Factory "0x00" None None) Reference.genesis = inr d
    /\ getCreate2Address Keccak.keccak_256 Abi.encode
         (contract_address Reference.create2Factory) (SaltString "test") "0x00" None None
       = Some (address d).
Proof.
  eexists. split.
  - vm_compute. reflexivity.
  - apply (proj1 (deployContract_address_is_getCreate2Address
                    Keccak.keccak_256 Abi.encode Reference.World Reference.env
                    Reference.genesis (SaltString "test") Reference.create2Factory
                    "0x00" None None)).
    vm_compute. reflexivity.
Defined.

(** C8, as the code has it.  For every salt, a string or a number, the salt
    that enters the address computation is the 32-byte hash of its string
    representation; a number is hashed as its decimal numeral.  There is no
    other case: a string that spells a raw 32-byte value is hashed like any
    other string, character by character. *)
Theorem saltToHex_hashes_every_salt :
  forall (keccak_256 : list byte -> list byte) (salt : Salt),
    (forall bs, List.length (keccak_256 bs) = 32) ->
    let salt32 := keccak_256 (Hex.toUtf8Bytes (salt_toString salt)) in
    Hex.arrayify (saltToHex keccak_256 salt) = Some salt32
    /\ List.length salt32 = 32
    /\ saltToHex keccak_256 salt = saltToHex keccak_256 (SaltString (salt_toString salt))
    /\ (forall abi_encode factoryAddress contractBytecode types args,
          getCreate2Address keccak_256 abi_encode factoryAddress salt contractBytecode
            (Some types) (Some args)
          = match buildBytecode abi_encode types args contractBytecode with
            | Some byteCode =>
                buildCreate2Address keccak_256 factoryAddress (Hex.hexlify salt32) byteCode
            | None => None
            end).
Proof.
  intros keccak_256 salt Hlen salt32. repeat split.
  - apply arrayify_saltToHex.
  - apply Hlen.
Qed.

Lemma saltToHex_hashes_every_salt_witness :
  Hex.arrayify (saltToHex Keccak.keccak_256 (SaltString Inputs.raw_salt))
  = Some (Keccak.keccak_256 (Hex.toUtf8Bytes Inputs.raw_salt)).
Proof.
  exact (proj1 (saltToHex_hashes_every_salt Keccak.keccak_256
                  (SaltString Inputs.raw_salt) KeccakFacts.length_keccak_256)).
Defined.

(** C8 as stated fails: the hex string of 32 zero bytes is a raw 32-byte salt,
    yet the salt used for it is not that value but the hash of its 66
    characters, and the address differs from the one the raw value gives. *)
Lemma raw_salt_is_hashed_again :
  Hex.arrayify Inputs.raw_salt = Some (repeat x00 32)
  /\ saltToHex Keccak.keccak_256 (SaltString Inputs.raw_salt) <> Inputs.raw_salt
  /\ Hex.arrayify (saltToHex Keccak.keccak_256 (SaltString Inputs.raw_salt))
     <> Some (repeat x00 32)
  /\ getCreate2Address Keccak.keccak_256 Abi.encode
       (contract_address Reference.create2Factory) (SaltString Inputs.raw_salt)
       "0x00" None None
     <> buildCreate2Address Keccak.keccak_256
          (contract_address Reference.create2Factory) Inputs.raw_salt "0x00".
Proof.
  split; [|split; [|split]]; vm_compute; try reflexivity; discriminate.
Qed.

(** C9. A second argument that is not an array (an options object, or
    nothing) makes [deployProxy(factory, x)] the same program as
    [deployProxy(factory, [], x)]: [x] is taken as the options and the
    initializer arguments are empty. *)
Theorem deployProxy_options_as_second_argument :
  forall (keccak_256 : list byte -> list byte)
         (abi_encode : list string -> list Value -> option string)
         (getInitializerData : Interface -> list Value -> option Initializer -> option string)
         (hre : HardhatRuntimeEnvironment)
         (ImplFactory : ContractFactory) (x : option DeployProxyOptions),
    deployProxy keccak_256 abi_encode getInitializerData hre ImplFactory
      (option_map OptsObject x) None
    = deployProxy keccak_256 abi_encode getInitializerData hre ImplFactory
        (Some (ArgsArray [])) x
    /\ normalize (option_map OptsObject x) None = ([], or_default no_options x).
Proof.
  intros. destruct x as [opts|]; split; reflexivity.
Qed.

(* ================================================================== *)
(** ** Runs of deployProxy *)

#[local] Set Warnings "-unused-intro-pattern".

(** Settles the next awaited call, library result or branch of a run under
    way, for every way it can go. *)
Ltac settle env :=
  match goal with
  | |- context [env ?X ?c ?w] => destruct (env X c w) as [[?e|?x] ?w] eqn:?
  | |- context [lift ?o] => destruct o eqn:?
  | x : (string * ProxyKind)%type |- _ => destruct x as [?impl ?k]
  | |- context [match ?k with uups => _ | transparent => _ | beacon => _ end] =>
      destruct k eqn:?
  | |- context [match ?o with Some _ => _ | None => _ end] => destruct o eqn:?
  end.

Ltac simplify_run := cbn [run bind call lift fst snd List.app or_default].

Ltac execute env := simplify_run; repeat (settle env; simplify_run).

(** Closes a case in which deployProxyImpl answered another kind than the
    one specified, or derives the kind from its answer. *)
Ltac by_specified_kind env :=
  match goal with
  | Hs : resolves_kind_as_specified env,
    He : env _ (deployProxyImpl _ _ ?opts) _ = (inr _, _),
    Hk : deployProxyImpl_kind ?opts = _ |- _ =>
      apply Hs in He; cbn [snd] in He; congruence
  end.

(** Closes a case in which a library function threw although it is assumed
    to accept its arguments. *)
Ltac library_accepts :=
  exfalso;
  repeat match goal with
         | H : implementation_address_defined _ _ _ _,
           Hf : deployFactory _ = Some _, Hs : deployFactorySalt _ = Some _ |- _ =>
             specialize (H _ _ Hf Hs)
         | H : uups_proxy_address_defined _ _ _ _ ?env _ _ _,
           Hf : deployFactory _ = Some _, Hs : deployFactorySalt _ = Some _,
           Hi : getCreate2Address _ _ _ _ _ (Some []) (Some []) = Some _,
           Hd : _ _ _ _ = Some _,
           Hp : ?env _ (getProxyFactory _ _) _ = (inr _, _) |- _ =>
             specialize (H _ _ _ _ _ _ _ Hf Hs Hi Hd Hp)
         end;
  match goal with
  | H : None <> None |- _ => exact (H eq_refl)
  | H : ?x <> None, E : ?x = None |- _ => exact (H E)
  | E : getCreate2Address _ _ _ _ _ (Some ?t) (Some ?a) = Some _,
    B : buildBytecode _ ?t ?a _ = None |- _ =>
      unfold getCreate2Address in E; cbn [or_default] in E; rewrite B in E; discriminate E
  | H : getCreate2Address _ _ _ _ _ (Some ?t) (Some ?a) <> None,
    B : buildBytecode _ ?t ?a _ = None |- _ =>
      apply H; unfold getCreate2Address; cbn [or_default]; now rewrite B
  end.

(** Goes through the events of a trace, discarding those that [Hev] is not
    about. *)
Ltac each_event Hin Hev :=
  cbn [In] in Hin;
  repeat (destruct Hin as [<-|Hin]; [try discriminate Hev|]); try contradiction.

Section PathFacts.

Variable keccak_256 : list byte -> list byte.
Variable abi_encode : list string -> list Value -> option string.
Variable hre : HardhatRuntimeEnvironment.

Lemma deterministic_true (opts : DeployProxyOptions) :
  deterministic opts = true ->
  exists factory salt,
    deployFactory opts = Some factory /\ deployFactorySalt opts = Some salt.
Proof.
  unfold deterministic.
  destruct (deployFactory opts) as [factory|], (deployFactorySalt opts) as [salt|];
    try discriminate. eauto.
Qed.

Lemma deployImplementation_ordinary (F : ContractFactory) (opts : DeployProxyOptions) :
  deterministic opts = false ->
  deployImplementation keccak_256 abi_encode hre F opts
  = bind (call (deployProxyImpl hre F opts)) (fun i => Ret (fst i, snd i)).
Proof.
  unfold deterministic, deployImplementation.
  now destruct (deployFactory opts), (deployFactorySalt opts).
Qed.

Lemma createProxy_ordinary (opts : DeployProxyOptions) :
  deterministic opts = false ->
  createProxy keccak_256 abi_encode opts
  = fun k PF args _ => bind (call (deploy PF args)) (fun d => Ret (Object_assign_kind k d)).
Proof.
  unfold deterministic, createProxy.
  now destruct (deployFactory opts), (deployFactorySalt opts).
Qed.

End PathFacts.

(** Splits on the path that [opts] selects and lays the program open. *)
Ltac by_path opts :=
  let Hdet := fresh "Hdet" in
  destruct (deterministic opts) eqn:Hdet;
  [ let factory := fresh "factory" in
    let salt := fresh "salt" in
    let Hf := fresh "Hf" in
    let Hs := fresh "Hs" in
    destruct (deterministic_true opts Hdet) as (factory & salt & Hf & Hs);
    unfold deployImplementation, warnAboutAdmin, dispatchKind, createProxy, deployContract;
    rewrite Hf, Hs
  | rewrite (deployImplementation_ordinary _ _ _ _ opts Hdet);
    unfold warnAboutAdmin, dispatchKind;
    rewrite (createProxy_ordinary _ _ opts Hdet); cbv beta ].

(** Lays [deployProxy] open for the options [normalize] yields, on the path
    they select; on the deterministic path, for each requested kind. *)
Ltac open_deployProxy a o :=
  let args := fresh "args" in
  let opts := fresh "opts" in
  unfold deployProxy; destruct (normalize a o) as [args opts]; cbn [snd];
  unfold resolves_to;
  by_path opts;
  [ destruct (kind opts) as [[]|]; cbn [or_default] | ].

Lemma append_empty_r (s : string) : (s ++ "")%string = s.
Proof. induction s as [|c s IH]; [reflexivity|]. cbn. now rewrite IH. Qed.

Lemma resolves_kind_as_specified_reference : resolves_kind_as_specified Reference.env.
Proof.
  intros hre F opts w r w'. unfold deployProxyImpl_kind. cbn [Reference.env].
  destruct (Reference.lookup _ _) as [d|].
  - now intros [= <- <-].
  - destruct (Reference.ordinary F w) as [[e|d] w1]; [discriminate|].
    now intros [= <- <-].
Qed.

Lemma requested_kind_resolves {W : Type} (env : Env W) (opts : DeployProxyOptions)
    (k : ProxyKind) :
  kind opts = Some k ->
  (deterministic opts = false -> resolves_kind_as_specified env) ->
  resolves_to env opts k.
Proof.
  intros Hk Hspec. unfold resolves_to, deployProxyImpl_kind. rewrite Hk.
  destruct (deterministic opts); [reflexivity|]. split; [now apply Hspec | reflexivity].
Qed.

Lemma default_kind_resolves {W : Type} (env : Env W) (opts : DeployProxyOptions) :
  kind opts = None ->
  (deterministic opts = true -> resolves_to env opts uups)
  /\ (deterministic opts = false -> resolves_kind_as_specified env ->
      resolves_to env opts transparent).
Proof.
  intros Hk. unfold resolves_to, deployProxyImpl_kind. rewrite Hk.
  split; intros ->; [reflexivity|]. now split.
Qed.

Section RunFacts.

Variable keccak_256 : list byte -> list byte.
Variable abi_encode : list string -> list Value -> option string.
Variable getInitializerData :
  Interface -> list Value -> option Initializer -> option string.
Variable hre : HardhatRuntimeEnvironment.
Variable W : Type.
Variable env : Env W.

Let program := deployProxy keccak_256 abi_encode getInitializerData hre.

(** The kind that [deployImplementation] returns. *)
Lemma run_deployImplementation_kind (w : W) (F : ContractFactory)
    (opts : DeployProxyOptions) (tr : list Event) (impl : string) (k : ProxyKind) (w' : W) :
  run env (deployImplementation keccak_256 abi_encode hre F opts) w
  = (tr, inr (impl, k), w') ->
  forall k', resolves_to env opts k' -> k = k'.
Proof.
  unfold resolves_to.
  destruct (deterministic opts) eqn:Hdet.
  - destruct (deterministic_true opts Hdet) as (factory & salt & Hf & Hs).
    unfold deployImplementation, deployContract. rewrite Hf, Hs.
    execute env; intros [= <- <- <- <-] k' Hk; exact Hk.
  - rewrite (deployImplementation_ordinary _ _ _ _ opts Hdet).
    execute env; intros [= <- <- <- <-] k' [Hspec Hk]; by_specified_kind env.
Qed.

(** A call that resolves the beacon kind. *)
Lemma run_beacon (w : W) (F : ContractFactory) (a : option ArgsOrOpts)
    (o : option DeployProxyOptions) (tr : list Event) (r : Error + ContractInstance)
    (w' : W) :
  run env (program F a o) w = (tr, r, w') ->
  resolves_to env (snd (normalize a o)) beacon ->
  (exists e, r = inl e)
  /\ existsb is_addProxy tr = false
  /\ existsb is_deploy tr = false
  /\ List.length (filter is_factory_deploy tr) <= 1.
Proof.
  subst program. open_deployProxy a o;
    try (intros _ [=]; fail);
    execute env; intros [= <- <- <-] Hk;
    try (destruct Hk as [Hspec Hk]; by_specified_kind env);
    cbn; repeat split; eauto; try discriminate; try congruence; lia.
Qed.

(** The error of a call that resolves beacon, when nothing else fails. *)
Lemma run_beacon_error (w : W) (F : ContractFactory) (a : option ArgsOrOpts)
    (o : option DeployProxyOptions) (tr : list Event) (r : Error + ContractInstance)
    (w' : W) :
  run env (program F a o) w = (tr, r, w') ->
  resolves_to env (snd (normalize a o)) beacon ->
  forallb resolved tr = true ->
  getInitializerData (interface F) (fst (normalize a o))
    (initializer (snd (normalize a o))) <> None ->
  implementation_address_defined keccak_256 abi_encode F (snd (normalize a o)) ->
  r = inl BeaconProxyUnsupportedError
  /\ (deterministic (snd (normalize a o)) = true -> existsb submits_transaction tr = true).
Proof.
  subst program. unfold deployProxy. destruct (normalize a o) as [args opts].
  cbn [fst snd]. unfold resolves_to.
  destruct (deterministic opts) eqn:Hdet.
  - destruct (deterministic_true opts Hdet) as (factory & salt & Hf & Hs).
    unfold deployImplementation, warnAboutAdmin, dispatchKind, createProxy, deployContract.
    rewrite Hf, Hs.
    destruct (kind opts) as [[]|]; cbn [or_default]; try (intros _ [=]; fail);
      execute env; intros [= <- <- <-] _ Hres Hinit Himpl; try discriminate Hres;
      try (split; [reflexivity | intros _; reflexivity]);
      library_accepts.
  - rewrite (deployImplementation_ordinary _ _ _ _ opts Hdet).
    unfold warnAboutAdmin, dispatchKind.
    rewrite (createProxy_ordinary _ _ opts Hdet); cbv beta.
    execute env; intros [= <- <- <-] [Hspec Hk] Hres Hinit Himpl; try discriminate Hres;
      try by_specified_kind env;
      try (split; [reflexivity | discriminate]);
      library_accepts.
Qed.

(** Where the append to the manifest stands in a run. *)
Lemma run_append (w : W) (F : ContractFactory) (a : option ArgsOrOpts)
    (o : option DeployProxyOptions) (tr : list Event) (r : Error + ContractInstance)
    (w' : W) :
  run env (program F a o) w = (tr, r, w') ->
  append_follows_creation None tr
  /\ (forall e, r = inl e ->
      existsb (fun ev => is_addProxy ev && resolved ev) tr = false)
  /\ (forall inst, r = inr inst ->
      existsb (fun ev => is_addProxy ev && resolved ev) tr = true).
Proof.
  subst program. unfold deployProxy.
  destruct (normalize a o) as [args opts].
  by_path opts; execute env; intros [= <- <- <-];
    cbn; repeat split; eauto; try discriminate; try congruence.
Qed.

(** A call that resolves uups while the manifest reports an admin, when
    nothing else fails. *)
Lemma run_uups_warned (w : W) (F : ContractFactory) (a : option ArgsOrOpts)
    (o : option DeployProxyOptions) (tr : list Event) (r : Error + ContractInstance)
    (w' : W) :
  run env (program F a o) w = (tr, r, w') ->
  resolves_to env (snd (normalize a o)) uups ->
  forallb resolved tr = true ->
  forallb admin_reported tr = true ->
  getInitializerData (interface F) (fst (normalize a o))
    (initializer (snd (normalize a o))) <> None ->
  implementation_address_defined keccak_256 abi_encode F (snd (normalize a o)) ->
  uups_proxy_address_defined keccak_256 abi_encode getInitializerData hre env F
    (fst (normalize a o)) (snd (normalize a o)) ->
  (exists inst, r = inr inst) /\ List.length (filter is_logWarning tr) = 1.
Proof.
  subst program. unfold deployProxy. destruct (normalize a o) as [args opts].
  cbn [fst snd]. unfold resolves_to.
  destruct (deterministic opts) eqn:Hdet.
  - destruct (deterministic_true opts Hdet) as (factory & salt & Hf & Hs).
    unfold deployImplementation, warnAboutAdmin, dispatchKind, createProxy, deployContract.
    rewrite Hf, Hs.
    destruct (kind opts) as [[]|]; cbn [or_default]; try (intros _ [=]; fail);
      execute env; intros [= <- <- <-] _ Hres Hadm Hinit Himpl Hproxy;
      try discriminate Hres; try discriminate Hadm;
      try (split; [eexists; reflexivity | reflexivity]);
      library_accepts.
  - rewrite (deployImplementation_ordinary _ _ _ _ opts Hdet).
    unfold warnAboutAdmin, dispatchKind.
    rewrite (createProxy_ordinary _ _ opts Hdet); cbv beta.
    execute env; intros [= <- <- <-] [Hspec Hk] Hres Hadm Hinit Himpl Hproxy;
      try discriminate Hres; try discriminate Hadm;
      try by_specified_kind env;
      try (split; [eexists; reflexivity | reflexivity]);
      library_accepts.
Qed.

(** A call that resolves uups provisions no admin. *)
Lemma run_uups_no_admin (w : W) (F : ContractFactory) (a : option ArgsOrOpts)
    (o : option DeployProxyOptions) (tr : list Event) (r : Error + ContractInstance)
    (w' : W) :
  run env (program F a o) w = (tr, r, w') ->
  resolves_to env (snd (normalize a o)) uups ->
  existsb is_admin_provisioning tr = false.
Proof.
  subst program. open_deployProxy a o;
    try (intros _ [=]; fail);
    execute env; intros [= <- <- <-] Hk;
    try (destruct Hk as [Hspec Hk]; by_specified_kind env);
    reflexivity.
Qed.

(** The kind of the proxy a call appends. *)
Lemma run_appended_kind (w : W) (F : ContractFactory) (a : option ArgsOrOpts)
    (o : option DeployProxyOptions) (tr : list Event) (r : Error + ContractInstance)
    (w' : W) (k : ProxyKind) :
  run env (program F a o) w = (tr, r, w') ->
  resolves_to env (snd (normalize a o)) k ->
  forall ev proxy, In ev tr -> appended ev = Some proxy -> pd_kind proxy = k.
Proof.
  subst program. open_deployProxy a o;
    execute env; intros [= <- <- <-] Hk ev proxy Hin Hev;
    try (destruct Hk as [Hspec Hk]);
    cbn [In] in Hin;
    repeat (destruct Hin as [<-|Hin]; [try discriminate Hev|]); try contradiction;
    injection Hev as <-; cbn; try reflexivity; by_specified_kind env.
Qed.

End RunFacts.

(* ================================================================== *)
(** ** The beacon kind *)

(** C2, as the code has it.  With [kind: 'beacon'], whatever the other
    options, [deployProxy] never succeeds, creates no proxy (no [deploy], at
    most the one [factory.deploy] of the implementation) and appends nothing
    to the manifest.  The error is BeaconProxyUnsupportedError whenever the
    steps before the dispatch go through: the environment resolved every call
    the run awaited, the initializer can be encoded and, on the deterministic
    path, [getCreate2Address] accepts the implementation.  It is raised once
    the implementation is resolved: on the deterministic path a creation
    transaction has been submitted by then.  Without the deterministic
    options the kind is the one deployProxyImpl answers, taken to be the
    requested one. *)
Theorem deployProxy_beacon_fails_after_implementation :
  forall (keccak_256 : list byte -> list byte)
         (abi_encode : list string -> list Value -> option string)
         (getInitializerData : Interface -> list Value -> option Initializer -> option string)
         (hre : HardhatRuntimeEnvironment) (W : Type) (env : Env W) (w : W)
         (ImplFactory : ContractFactory)
         (args : option ArgsOrOpts) (opts : option DeployProxyOptions),
    let arguments := fst (normalize args opts) in
    let options := snd (normalize args opts) in
    let p := deployProxy keccak_256 abi_encode getInitializerData hre ImplFactory args opts in
    kind options = Some beacon ->
    (deterministic options = false -> resolves_kind_as_specified env) ->
    (exists e, outcome env p w = inl e)
    /\ existsb is_addProxy (trace env p w) = false
    /\ existsb is_deploy (trace env p w) = false
    /\ List.length (filter is_factory_deploy (trace env p w)) <= 1
    /\ (forallb resolved (trace env p w) = true ->
        getInitializerData (interface ImplFactory) arguments (initializer options) <> None ->
        implementation_address_defined keccak_256 abi_encode ImplFactory options ->
        outcome env p w = inl BeaconProxyUnsupportedError
        /\ (deterministic options = true ->
            existsb submits_transaction (trace env p w) = true)).
Proof.
  intros keccak_256 abi_encode getInitializerData hre W env w ImplFactory args opts
    arguments options p Hkind Hspec.
  unfold outcome, trace. destruct (run env p w) as [[tr r] w'] eqn:Hrun.
  cbn [fst snd].
  pose proof (requested_kind_resolves env options beacon Hkind Hspec) as Hk.
  destruct (run_beacon _ _ _ _ _ _ _ _ _ _ _ _ _ Hrun Hk) as (H1 & H2 & H3 & H4).
  split; [exact H1|]. split; [exact H2|]. split; [exact H3|]. split; [exact H4|].
  intros Hres Hinit Himpl.
  exact (run_beacon_error _ _ _ _ _ _ _ _ _ _ _ _ _ Hrun Hk Hres Hinit Himpl).
Qed.

Lemma deployProxy_beacon_fails_after_implementation_witness :
  let p := Reference.deployProxy Reference.Greeter Inputs.forty_two
             (Some (Inputs.deterministic_options (Some beacon))) in
  outcome Reference.env p Reference.genesis = inl BeaconProxyUnsupportedError
  /\ existsb submits_transaction (trace Reference.env p Reference.genesis) = true.
Proof.
  intros p.
  destruct (deployProxy_beacon_fails_after_implementation
              Reference.keccak_256 Reference.abi_encode Reference.getInitializerData
              Reference.hardhat Reference.World Reference.env Reference.genesis
              Reference.Greeter Inputs.forty_two
              (Some (Inputs.deterministic_options (Some beacon)))
              eq_refl (fun H => False_ind _ (diff_true_false H)))
    as (_ & _ & _ & _ & H).
  destruct H as [Hr Hs].
  - vm_compute. reflexivity.
  - vm_compute. discriminate.
  - intros factory salt Hf Hs. injection Hf as <-. injection Hs as <-.
    vm_compute. discriminate.
  - split; [exact Hr | exact (Hs eq_refl)].
Defined.

(** C2 as stated fails: with [kind: 'beacon'] and the deterministic options,
    the error is BeaconProxyUnsupportedError, but the creation transaction of
    the implementation was submitted before it was raised. *)
Lemma beacon_error_follows_a_transaction :
  let p := Reference.deployProxy Reference.Greeter Inputs.forty_two
             (Some (Inputs.deterministic_options (Some beacon))) in
  ~ (outcome Reference.env p Reference.genesis = inl BeaconProxyUnsupportedError
     /\ existsb submits_transaction (trace Reference.env p Reference.genesis) = false).
Proof.
  intros p [_ H].
  assert (E : existsb submits_transaction (trace Reference.env p Reference.genesis) = true)
    by (vm_compute; reflexivity).
  rewrite E in H. discriminate H.
Qed.

(* ================================================================== *)
(** ** The append to the manifest *)

(** C3, as the code has it.  In every run of [deployProxy], an append to the
    manifest is the last call and comes directly after the resolved call
    ([deploy] or [factory.deploy]) that submitted the creation transaction of
    the very proxy appended; the confirmation of that transaction is not
    awaited in between.  When the call fails, no append has been made; when it
    succeeds, the append has been made. *)
Theorem manifest_append_follows_submission :
  forall (keccak_256 : list byte -> list byte)
         (abi_encode : list string -> list Value -> option string)
         (getInitializerData : Interface -> list Value -> option Initializer -> option string)
         (hre : HardhatRuntimeEnvironment) (W : Type) (env : Env W) (w : W)
         (ImplFactory : ContractFactory)
         (args : option ArgsOrOpts) (opts : option DeployProxyOptions),
    let p := deployProxy keccak_256 abi_encode getInitializerData hre ImplFactory args opts in
    append_follows_creation None (trace env p w)
    /\ (forall e, outcome env p w = inl e ->
        existsb (fun ev => is_addProxy ev && resolved ev) (trace env p w) = false)
    /\ (forall inst, outcome env p w = inr inst ->
        existsb (fun ev => is_addProxy ev && resolved ev) (trace env p w) = true).
Proof.
  intros keccak_256 abi_encode getInitializerData hre W env w ImplFactory args opts p.
  unfold outcome, trace. destruct (run env p w) as [[tr r] w'] eqn:Hrun.
  cbn [fst snd].
  exact (run_append _ _ _ _ _ _ _ _ _ _ _ _ _ Hrun).
Qed.

Lemma manifest_append_follows_submission_witness :
  let failing := Reference.deployProxy Reference.Greeter Inputs.forty_two
                   (Some (Inputs.ordinary_options (Some transparent))) in
  let succeeding := Reference.deployProxy Reference.Greeter Inputs.forty_two
                      (Some (Inputs.deterministic_options None)) in
  existsb (fun ev => is_addProxy ev && resolved ev)
    (trace Reference.env failing Inputs.proxy_reverts) = false
  /\ existsb (fun ev => is_addProxy ev && resolved ev)
       (trace Reference.env succeeding Reference.genesis) = true.
Proof.
  intros failing succeeding. split.
  - apply (proj1 (proj2 (manifest_append_follows_submission
                           Reference.keccak_256 Reference.abi_encode
                           Reference.getInitializerData Reference.hardhat
                           Reference.World Reference.env Inputs.proxy_reverts
                           Reference.Greeter Inputs.forty_two
                           (Some (Inputs.ordinary_options (Some transparent)))))
             (Rejected "constructor reverted")).
    vm_compute. reflexivity.
  - assert (Hs : succeeded (outcome Reference.env succeeding Reference.genesis) = true)
      by (vm_compute; reflexivity).
    destruct (outcome Reference.env succeeding Reference.genesis) as [e|inst] eqn:H;
      [discriminate Hs|].
    exact (proj2 (proj2 (manifest_append_follows_submission
                           Reference.keccak_256 Reference.abi_encode
                           Reference.getInitializerData Reference.hardhat
                           Reference.World Reference.env Reference.genesis
                           Reference.Greeter Inputs.forty_two
                           (Some (Inputs.deterministic_options None)))) inst H).
Defined.

(** C3 as stated fails: on the deterministic path the proxy is appended while
    only the implementation's transaction has been confirmed; the
    confirmation of the proxy's own creation transaction was never awaited. *)
Lemma proxy_appended_before_confirmation :
  let p := Reference.deployProxy Reference.Greeter Inputs.forty_two
             (Some (Inputs.deterministic_options None)) in
  appends_only_confirmed [] (trace Reference.env p Reference.genesis) = false
  /\ map pd_txHash (Reference.proxies (Reference.manifest
                                         (final Reference.env p Reference.genesis)))
     = [Hex.hexlify (Abi.word 2)]
  /\ Reference.confirmed (final Reference.env p Reference.genesis)
     = [Hex.hexlify (Abi.word 1)].
Proof.
  intros p. split; [|split]; vm_compute; reflexivity.
Qed.

(** The admin that fetchOrDeployAdmin recorded stays in the manifest when the
    creation of the proxy fails afterwards. *)
Example admin_stays_recorded_when_the_proxy_fails :
  let p := Reference.deployProxy Reference.Greeter Inputs.forty_two
             (Some (Inputs.ordinary_options (Some transparent))) in
  outcome Reference.env p Inputs.proxy_reverts = inl (Rejected "constructor reverted")
  /\ Reference.admin (Reference.manifest Inputs.proxy_reverts) = None
  /\ Reference.admin (Reference.manifest (final Reference.env p Inputs.proxy_reverts))
     <> None
  /\ Reference.proxies (Reference.manifest (final Reference.env p Inputs.proxy_reverts))
     = [].
Proof.
  intros p. split; [|split; [|split]]; vm_compute; try reflexivity; discriminate.
Qed.

(* ================================================================== *)
(** ** The uups kind and the admin *)

(** C5. A call with [kind: 'uups'] against a manifest whose admin is set
    (every [manifest.getAdmin()] of the run reports one) returns a contract
    and logs exactly one warning, whenever the steps that have nothing to do
    with the admin go through: the environment resolved every call the run
    awaited, the initializer can be encoded and, on the deterministic path,
    [getCreate2Address] accepts the implementation and the proxy.  Without
    the deterministic options the kind is the one deployProxyImpl answers,
    taken to be the requested one. *)
Theorem uups_with_admin_succeeds_with_one_warning :
  forall (keccak_256 : list byte -> list byte)
         (abi_encode : list string -> list Value -> option string)
         (getInitializerData : Interface -> list Value -> option Initializer -> option string)
         (hre : HardhatRuntimeEnvironment) (W : Type) (env : Env W) (w : W)
         (ImplFactory : ContractFactory)
         (args : option ArgsOrOpts) (opts : option DeployProxyOptions),
    let arguments := fst (normalize args opts) in
    let options := snd (normalize args opts) in
    let p := deployProxy keccak_256 abi_encode getInitializerData hre ImplFactory args opts in
    kind options = Some uups ->
    (deterministic options = false -> resolves_kind_as_specified env) ->
    forallb admin_reported (trace env p w) = true ->
    forallb resolved (trace env p w) = true ->
    getInitializerData (interface ImplFactory) arguments (initializer options) <> None ->
    implementation_address_defined keccak_256 abi_encode ImplFactory options ->
    uups_proxy_address_defined keccak_256 abi_encode getInitializerData hre env
      ImplFactory arguments options ->
    (exists inst, outcome env p w = inr inst)
    /\ List.length (filter is_logWarning (trace env p w)) = 1.
Proof.
  intros keccak_256 abi_encode getInitializerData hre W env w ImplFactory args opts
    arguments options p Hkind Hspec.
  unfold outcome, trace. destruct (run env p w) as [[tr r] w'] eqn:Hrun.
  cbn [fst snd]. intros Hadmin Hresolved Hinit Himpl Hproxy.
  exact (run_uups_warned _ _ _ _ _ _ _ _ _ _ _ _ _ Hrun
           (requested_kind_resolves env options uups Hkind Hspec)
           Hresolved Hadmin Hinit Himpl Hproxy).
Qed.

Lemma uups_with_admin_succeeds_with_one_warning_witness :
  let p := Reference.deployProxy Reference.Greeter Inputs.forty_two
             (Some (Inputs.deterministic_options (Some uups))) in
  succeeded (outcome Reference.env p Inputs.with_admin) = true
  /\ List.length (filter is_logWarning (trace Reference.env p Inputs.with_admin)) = 1
  /\ Reference.warnings (final Reference.env p Inputs.with_admin)
     = ["A proxy admin was previously deployed on this network"].
Proof.
  intros p.
  destruct (uups_with_admin_succeeds_with_one_warning
              Reference.keccak_256 Reference.abi_encode Reference.getInitializerData
              Reference.hardhat Reference.World Reference.env Inputs.with_admin
              Reference.Greeter Inputs.forty_two
              (Some (Inputs.deterministic_options (Some uups)))
              eq_refl (fun H => False_ind _ (diff_true_false H)))
    as [[inst Hinst] Hone].
  - vm_compute. reflexivity.
  - vm_compute. reflexivity.
  - vm_compute. discriminate.
  - intros factory salt Hf Hs. injection Hf as <-. injection Hs as <-.
    vm_compute. discriminate.
  - intros factory salt impl data ProxyFactory w0 w1 Hf Hs Himpl Hdata Hp.
    injection Hf as <-. injection Hs as <-.
    cbn [Reference.env] in Hp. injection Hp as <- _.
    match type of Himpl with
    | ?lhs = _ =>
        let v := eval vm_compute in lhs in
        assert (Ei : lhs = v) by (vm_compute; reflexivity)
    end.
    rewrite Ei in Himpl. injection Himpl as <-.
    match type of Hdata with
    | ?lhs = _ =>
        let v := eval vm_compute in lhs in
        assert (Ed : lhs = v) by (vm_compute; reflexivity)
    end.
    rewrite Ed in Hdata. injection Hdata as <-.
    vm_compute. discriminate.
  - split; [|split; [exact Hone | vm_compute; reflexivity]].
    change (outcome Reference.env p Inputs.with_admin) with
      (outcome Reference.env
         (deployProxy Reference.keccak_256 Reference.abi_encode
            Reference.getInitializerData Reference.hardhat Reference.Greeter
            Inputs.forty_two (Some (Inputs.deterministic_options (Some uups))))
         Inputs.with_admin).
    rewrite Hinst. reflexivity.
Defined.

(* ================================================================== *)
(** ** The resolved kind *)

(** C6. When the [kind] option is absent: with both [deployFactory] and
    [deployFactorySalt] present, the kind that the implementation step
    returns, and the kind of the proxy that a run appends, is uups; without
    that pair it is the kind deployProxyImpl answers, transparent as
    specified. *)
Theorem absent_kind_defaults :
  forall (keccak_256 : list byte -> list byte)
         (abi_encode : list string -> list Value -> option string)
         (getInitializerData : Interface -> list Value -> option Initializer -> option string)
         (hre : HardhatRuntimeEnvironment) (W : Type) (env : Env W) (w : W)
         (ImplFactory : ContractFactory) (opts : DeployProxyOptions),
    kind opts = None ->
    (forall tr impl k w',
        run env (deployImplementation keccak_256 abi_encode hre ImplFactory opts) w
        = (tr, inr (impl, k), w') ->
        (deterministic opts = true -> k = uups)
        /\ (deterministic opts = false -> resolves_kind_as_specified env ->
            k = transparent))
    /\ (forall args ev proxy,
          In ev (trace env
                   (deployProxy keccak_256 abi_encode getInitializerData hre ImplFactory
                      (Some (ArgsArray args)) (Some opts)) w) ->
          appended ev = Some proxy ->
          (deterministic opts = true -> pd_kind proxy = uups)
          /\ (deterministic opts = false -> resolves_kind_as_specified env ->
              pd_kind proxy = transparent)).
Proof.
  intros keccak_256 abi_encode getInitializerData hre W env w ImplFactory opts Hkind.
  destruct (default_kind_resolves env opts Hkind) as [Hdet Hord].
  split.
  - intros tr impl k w' Hrun. split.
    + intros H. exact (run_deployImplementation_kind _ _ _ _ _ _ _ _ _ _ _ _ Hrun _ (Hdet H)).
    + intros H Hspec.
      exact (run_deployImplementation_kind _ _ _ _ _ _ _ _ _ _ _ _ Hrun _ (Hord H Hspec)).
  - intros args ev proxy. unfold trace.
    destruct (run env _ w) as [[tr r] w'] eqn:Hrun. cbn [fst].
    intros Hin Hev. split.
    + intros H.
      exact (run_appended_kind _ _ _ _ _ _ _ _ _ _ _ _ _ _ Hrun (Hdet H) ev proxy Hin Hev).
    + intros H Hspec.
      exact (run_appended_kind _ _ _ _ _ _ _ _ _ _ _ _ _ _ Hrun (Hord H Hspec)
               ev proxy Hin Hev).
Qed.

Lemma absent_kind_defaults_witness :
  returned_kind
    (outcome Reference.env
       (deployImplementation Reference.keccak_256 Reference.abi_encode Reference.hardhat
          Reference.Greeter (Inputs.deterministic_options None)) Reference.genesis)
  = Some uups
  /\ returned_kind
       (outcome Reference.env
          (deployImplementation Reference.keccak_256 Reference.abi_encode Reference.hardhat
             Reference.Greeter (Inputs.ordinary_options None)) Reference.genesis)
     = Some transparent.
Proof.
  split.
  - pose proof (run_eta Reference.env
                  (deployImplementation Reference.keccak_256 Reference.abi_encode
                     Reference.hardhat Reference.Greeter
                     (Inputs.deterministic_options None)) Reference.genesis) as Hrun.
    assert (Hs : succeeded (outcome Reference.env
                    (deployImplementation Reference.keccak_256 Reference.abi_encode
                       Reference.hardhat Reference.Greeter
                       (Inputs.deterministic_options None)) Reference.genesis) = true)
      by (vm_compute; reflexivity).
    destruct (outcome Reference.env _ Reference.genesis) as [e|[impl k]];
      [discriminate Hs|].
    cbn [returned_kind snd]. f_equal.
    exact (proj1 (proj1 (absent_kind_defaults
                           Reference.keccak_256 Reference.abi_encode
                           Reference.getInitializerData Reference.hardhat
                           Reference.World Reference.env Reference.genesis
                           Reference.Greeter (Inputs.deterministic_options None) eq_refl)
                    _ impl k _ Hrun) eq_refl).
  - pose proof (run_eta Reference.env
                  (deployImplementation Reference.keccak_256 Reference.abi_encode
                     Reference.hardhat Reference.Greeter
                     (Inputs.ordinary_options None)) Reference.genesis) as Hrun.
    assert (Hs : succeeded (outcome Reference.env
                    (deployImplementation Reference.keccak_256 Reference.abi_encode
                       Reference.hardhat Reference.Greeter
                       (Inputs.ordinary_options None)) Reference.genesis) = true)
      by (vm_compute; reflexivity).
    destruct (outcome Reference.env _ Reference.genesis) as [e|[impl k]];
      [discriminate Hs|].
    cbn [returned_kind snd]. f_equal.
    exact (proj2 (proj1 (absent_kind_defaults
                           Reference.keccak_256 Reference.abi_encode
                           Reference.getInitializerData Reference.hardhat
                           Reference.World Reference.env Reference.genesis
                           Reference.Greeter (Inputs.ordinary_options None) eq_refl)
                    _ impl k _ Hrun) eq_refl resolves_kind_as_specified_reference).
Defined.

(* ================================================================== *)
(** ** The arguments of the proxy constructor *)

(** An ordinary creation is a request. *)
Lemma is_deploy_request (ev : Event) :
  is_deploy ev = true ->
  exists ProxyFactory values, deploy_request ev = Some (ProxyFactory, values).
Proof. destruct ev as [X c r]. destruct c; try discriminate. cbn. eauto. Qed.

Section DispatchFacts.

Variable keccak_256 : list byte -> list byte.
Variable abi_encode : list string -> list Value -> option string.
Variable getInitializerData :
  Interface -> list Value -> option Initializer -> option string.
Variable hre : HardhatRuntimeEnvironment.
Variable W : Type.
Variable env : Env W.

Let program := deployProxy keccak_256 abi_encode getInitializerData hre.

Lemma run_dispatch_transparent (w : W) (F : ContractFactory) (impl data : string)
    (tr : list Event) (res : ContractFactory * list Value * list string) (w' : W) :
  run env (dispatchKind hre F transparent impl data) w = (tr, inr res, w') ->
  exists AdminFactory adminAddress,
    tr = [ Ev (getProxyAdminFactory hre (signer F)) (inr AdminFactory);
           Ev (fetchOrDeployAdmin (provider hre) AdminFactory) (inr adminAddress);
           Ev (getTransparentUpgradeableProxyFactory hre (signer F))
             (inr (fst (fst res))) ]
    /\ snd (fst res) = [VString impl; VString adminAddress; VString data]
    /\ snd res = ["address"; "address"; "bytes"].
Proof.
  unfold dispatchKind. execute env; intros [= <- <- <-]. eauto.
Qed.

Lemma run_dispatch_uups (w : W) (F : ContractFactory) (impl data : string)
    (tr : list Event) (r : Error + ContractFactory * list Value * list string) (w' : W) :
  run env (dispatchKind hre F uups impl data) w = (tr, r, w') ->
  existsb is_admin_provisioning tr = false
  /\ forall res,
       r = inr res ->
       tr = [Ev (getProxyFactory hre (signer F)) (inr (fst (fst res)))]
       /\ snd (fst res) = [VString impl; VString data]
       /\ snd res = ["address"; "bytes"].
Proof.
  unfold dispatchKind. execute env; intros [= <- <- <-];
    (split; [reflexivity|]); intros res [= <-]. auto.
Qed.

Lemma createProxy_deterministic (opts : DeployProxyOptions) (factory : Contract)
    (salt : Salt) (k : ProxyKind) (PF : ContractFactory)
    (args : list Value) (types : list string) :
  deployFactory opts = Some factory ->
  deployFactorySalt opts = Some salt ->
  createProxy keccak_256 abi_encode opts k PF args types
  = bind (deployContract keccak_256 abi_encode salt factory (bytecode PF)
            (Some types) (Some args))
      (fun d => Ret (Object_assign_kind k d)).
Proof. unfold createProxy. now intros -> ->. Qed.

(** What an ordinary creation is called with. *)
Lemma run_deploy_request (w : W) (F : ContractFactory) (a : option ArgsOrOpts)
    (o : option DeployProxyOptions) (tr : list Event) (r : Error + ContractInstance)
    (w' : W) :
  run env (program F a o) w = (tr, r, w') ->
  forall ev ProxyFactory values,
    In ev tr -> deploy_request ev = Some (ProxyFactory, values) ->
    exists impl k data types,
      In (Ev (deployProxyImpl hre F (snd (normalize a o))) (inr (impl, k))) tr
      /\ getInitializerData (interface F) (fst (normalize a o))
           (initializer (snd (normalize a o))) = Some data
      /\ dispatched hre F tr k impl data ProxyFactory values types.
Proof.
  subst program. unfold deployProxy. destruct (normalize a o) as [args opts].
  cbn [fst snd].
  by_path opts; execute env; intros [= <- <- <-] ev PF values Hin Hev;
    each_event Hin Hev;
    injection Hev as <- <-;
    do 4 eexists; (split; [cbn [In]; eauto 12|]); (split; [reflexivity|]);
    cbn [dispatched];
    first
      [ split; [cbn [In]; eauto 12 | split; [reflexivity | split; reflexivity]]
      | do 2 eexists; split; [cbn [In]; eauto 12|]; split; [cbn [In]; eauto 12|];
        split; [cbn [In]; eauto 12|]; split; reflexivity ].
Qed.

(** What a deterministic creation is called with. *)
Lemma run_factory_deploy_code (w : W) (F : ContractFactory) (a : option ArgsOrOpts)
    (o : option DeployProxyOptions) (tr : list Event) (r : Error + ContractInstance)
    (w' : W) (factory : Contract) (salt : Salt) (code : string) :
  run env (program F a o) w = (tr, r, w') ->
  deployFactory (snd (normalize a o)) = Some factory ->
  deployFactorySalt (snd (normalize a o)) = Some salt ->
  nth_error (factory_deploy_codes tr) 1 = Some code ->
  exists impl data ProxyFactory values types,
    getCreate2Address keccak_256 abi_encode (contract_address factory) salt
      (bytecode F) (Some []) (Some []) = Some impl
    /\ getInitializerData (interface F) (fst (normalize a o))
         (initializer (snd (normalize a o))) = Some data
    /\ dispatched hre F tr (or_default uups (kind (snd (normalize a o)))) impl data
         ProxyFactory values types
    /\ buildBytecode abi_encode types values (bytecode ProxyFactory) = Some code.
Proof.
  subst program. unfold deployProxy. destruct (normalize a o) as [args opts].
  cbn [fst snd]. intros Hrun Hf Hs. revert Hrun.
  unfold deployImplementation, warnAboutAdmin, dispatchKind, createProxy, deployContract.
  rewrite Hf, Hs.
  destruct (kind opts) as [[]|]; cbn [or_default];
    execute env; intros [= <- <- <-] Hcode;
    cbn in Hcode; try discriminate Hcode;
    injection Hcode as <-;
    do 5 eexists; (split; [first [eassumption | reflexivity]|]); (split; [reflexivity|]);
    cbn [dispatched];
    first
      [ split; [split; [cbn [In]; eauto 12 | split; [reflexivity | split; reflexivity]]
               | eassumption]
      | split; [do 2 eexists; split; [cbn [In]; eauto 12|]; split; [cbn [In]; eauto 12|];
                split; [cbn [In]; eauto 12|]; split; reflexivity
               | eassumption] ].
Qed.

(** A call that returns has created its proxy, once. *)
Lemma run_creates_once (w : W) (F : ContractFactory) (a : option ArgsOrOpts)
    (o : option DeployProxyOptions) (tr : list Event) (r : Error + ContractInstance)
    (w' : W) :
  run env (program F a o) w = (tr, r, w') ->
  succeeded r = true ->
  if deterministic (snd (normalize a o))
  then List.length (factory_deploy_codes tr) = 2 /\ existsb is_deploy tr = false
  else List.length (filter is_deploy tr) = 1 /\ factory_deploy_codes tr = [].
Proof.
  subst program. unfold deployProxy. destruct (normalize a o) as [args opts].
  cbn [fst snd].
  by_path opts; execute env; intros [= <- <- <-] Hr; try discriminate Hr;
    split; reflexivity.
Qed.

(** A call for which deployProxyImpl answers uups provisions no admin. *)
Lemma run_answered_uups (w : W) (F : ContractFactory) (a : option ArgsOrOpts)
    (o : option DeployProxyOptions) (tr : list Event) (r : Error + ContractInstance)
    (w' : W) :
  run env (program F a o) w = (tr, r, w') ->
  forall ev, In ev tr -> answered_kind ev = Some uups ->
  existsb is_admin_provisioning tr = false.
Proof.
  subst program. unfold deployProxy. destruct (normalize a o) as [args opts].
  cbn [fst snd].
  by_path opts; execute env; intros [= <- <- <-] ev Hin Hev;
    each_event Hin Hev; reflexivity.
Qed.

(** A deterministic call of kind uups provisions no admin. *)
Lemma run_deterministic_uups (w : W) (F : ContractFactory) (a : option ArgsOrOpts)
    (o : option DeployProxyOptions) (tr : list Event) (r : Error + ContractInstance)
    (w' : W) :
  run env (program F a o) w = (tr, r, w') ->
  deterministic (snd (normalize a o)) = true ->
  or_default uups (kind (snd (normalize a o))) = uups ->
  existsb is_admin_provisioning tr = false.
Proof.
  subst program. unfold deployProxy. destruct (normalize a o) as [args opts].
  cbn [fst snd].
  by_path opts; [|discriminate].
  destruct (kind opts) as [[]|]; cbn [or_default];
    execute env; intros [= <- <- <-] _ Hk; try discriminate Hk; reflexivity.
Qed.

(** The creation code of the first [factory.deploy] of a call. *)
Lemma run_implementation_code (w : W) (F : ContractFactory) (a : option ArgsOrOpts)
    (o : option DeployProxyOptions) (tr : list Event) (r : Error + ContractInstance)
    (w' : W) :
  run env (program F a o) w = (tr, r, w') ->
  abi_encode [] [] = Some "0x" ->
  match filter is_factory_deploy tr with
  | ev :: _ => deploys_code (bytecode F) ev
  | [] => True
  end.
Proof.
  intros Hrun Hnil. revert Hrun.
  assert (Hcode : forall code, buildBytecode abi_encode [] [] (bytecode F) = Some code ->
                               code = bytecode F).
  { unfold buildBytecode, encodeParams. rewrite Hnil. cbn [JsString.slice].
    rewrite append_empty_r. now intros code [= <-]. }
  subst program. unfold deployProxy. destruct (normalize a o) as [args opts].
  by_path opts; execute env; intros [= <- <- <-]; cbn; auto.
Qed.

End DispatchFacts.

(** C7. What a call of [deployProxy] creates its proxy with.  Without the
    deterministic options every [ProxyFactory.deploy] of the run is called,
    for the address and the kind that deployProxyImpl answered and the
    encoded initializer, with (implementation, admin, initializer data) on
    the factory of [getTransparentUpgradeableProxyFactory] when the kind is
    transparent, the admin being the address [fetchOrDeployAdmin] answered,
    and with (implementation, initializer data) on the factory of
    [getProxyFactory] when it is uups, no call of the run provisioning an
    admin.  With them the second [factory.deploy] of the run carries the
    bytecode of that proxy factory followed by the same arguments, encoded
    with the types (address, address, bytes) or (address, bytes), for the
    create2 address of the implementation and the requested kind, uups by
    default.  A call that returns has made that creation, once.  A call that
    resolves uups never calls [getProxyAdminFactory] or [fetchOrDeployAdmin].
    (For uups [manifest.getAdmin()] is still read, for the warning alone; its
    answer does not enter the arguments.) *)
Theorem proxy_constructor_arguments_by_kind :
  forall (keccak_256 : list byte -> list byte)
         (abi_encode : list string -> list Value -> option string)
         (getInitializerData : Interface -> list Value -> option Initializer -> option string)
         (hre : HardhatRuntimeEnvironment) (W : Type) (env : Env W) (w : W)
         (ImplFactory : ContractFactory)
         (args : option ArgsOrOpts) (opts : option DeployProxyOptions),
    let arguments := fst (normalize args opts) in
    let options := snd (normalize args opts) in
    let p := deployProxy keccak_256 abi_encode getInitializerData hre ImplFactory args opts in
    let tr := trace env p w in
    (forall ev ProxyFactory values,
        In ev tr -> deploy_request ev = Some (ProxyFactory, values) ->
        exists impl k data types,
          In (Ev (deployProxyImpl hre ImplFactory options) (inr (impl, k))) tr
          /\ getInitializerData (interface ImplFactory) arguments (initializer options)
             = Some data
          /\ dispatched hre ImplFactory tr k impl data ProxyFactory values types)
    /\ (forall factory salt code,
          deployFactory options = Some factory ->
          deployFactorySalt options = Some salt ->
          nth_error (factory_deploy_codes tr) 1 = Some code ->
          exists impl data ProxyFactory values types,
            getCreate2Address keccak_256 abi_encode (contract_address factory) salt
              (bytecode ImplFactory) (Some []) (Some []) = Some impl
            /\ getInitializerData (interface ImplFactory) arguments (initializer options)
               = Some data
            /\ dispatched hre ImplFactory tr (or_default uups (kind options)) impl data
                 ProxyFactory values types
            /\ buildBytecode abi_encode types values (bytecode ProxyFactory) = Some code)
    /\ (succeeded (outcome env p w) = true ->
        if deterministic options
        then List.length (factory_deploy_codes tr) = 2 /\ existsb is_deploy tr = false
        else List.length (filter is_deploy tr) = 1 /\ factory_deploy_codes tr = [])
    /\ (forall ev,
          In ev tr -> answered_kind ev = Some uups ->
          existsb is_admin_provisioning tr = false)
    /\ (deterministic options = true ->
        or_default uups (kind options) = uups ->
        existsb is_admin_provisioning tr = false).
Proof.
  intros keccak_256 abi_encode getInitializerData hre W env w ImplFactory args opts
    arguments options p tr.
  subst tr. unfold trace, outcome.
  destruct (run env p w) as [[tr r] w'] eqn:Hrun. cbn [fst snd].
  split; [|split; [|split; [|split]]].
  - exact (run_deploy_request _ _ _ _ _ _ _ _ _ _ _ _ _ Hrun).
  - intros factory salt code.
    exact (run_factory_deploy_code _ _ _ _ _ _ _ _ _ _ _ _ _ _ _ _ Hrun).
  - exact (run_creates_once _ _ _ _ _ _ _ _ _ _ _ _ _ Hrun).
  - exact (run_answered_uups _ _ _ _ _ _ _ _ _ _ _ _ _ Hrun).
  - exact (run_deterministic_uups _ _ _ _ _ _ _ _ _ _ _ _ _ Hrun).
Qed.

Lemma proxy_constructor_arguments_by_kind_witness :
  let uups_call := Reference.deployProxy Reference.Greeter Inputs.forty_two
                     (Some (Inputs.deterministic_options None)) in
  let transparent_call := Reference.deployProxy Reference.Greeter Inputs.forty_two
                            (Some (Inputs.ordinary_options None)) in
  (exists code impl data ProxyFactory,
      nth_error (factory_deploy_codes (trace Reference.env uups_call Reference.genesis)) 1
      = Some code
      /\ buildBytecode Reference.abi_encode ["address"; "bytes"]
           [VString impl; VString data] (bytecode ProxyFactory) = Some code
      /\ existsb is_admin_provisioning (trace Reference.env uups_call Reference.genesis)
         = false)
  /\ (exists ev ProxyFactory impl adminAddress data AdminFactory,
        In ev (trace Reference.env transparent_call Reference.genesis)
        /\ deploy_request ev
           = Some (ProxyFactory, [VString impl; VString adminAddress; VString data])
        /\ In (Ev (fetchOrDeployAdmin (provider Reference.hardhat) AdminFactory)
                 (inr adminAddress))
             (trace Reference.env transparent_call Reference.genesis)).
Proof.
  intros uups_call transparent_call. split.
  - pose proof (proxy_constructor_arguments_by_kind
                  Reference.keccak_256 Reference.abi_encode Reference.getInitializerData
                  Reference.hardhat Reference.World Reference.env Reference.genesis
                  Reference.Greeter Inputs.forty_two
                  (Some (Inputs.deterministic_options None))) as (_ & H & _).
    assert (Hc : match nth_error
                         (factory_deploy_codes
                            (trace Reference.env uups_call Reference.genesis)) 1 with
                 | Some _ => true
                 | None => false
                 end = true) by (vm_compute; reflexivity).
    destruct (nth_error
                (factory_deploy_codes (trace Reference.env uups_call Reference.genesis)) 1)
      as [code|] eqn:Hn; [|discriminate Hc].
    destruct (H Reference.create2Factory (SaltString "test") code eq_refl eq_refl Hn)
      as (impl & data & PF & values & types & _ & _ & (_ & Hno & -> & ->) & Hcode).
    exists code, impl, data, PF. split; [reflexivity|]. split; [exact Hcode | exact Hno].
  - pose proof (proxy_constructor_arguments_by_kind
                  Reference.keccak_256 Reference.abi_encode Reference.getInitializerData
                  Reference.hardhat Reference.World Reference.env Reference.genesis
                  Reference.Greeter Inputs.forty_two
                  (Some (Inputs.ordinary_options None))) as (H & _).
    assert (Hd : existsb is_deploy (trace Reference.env transparent_call Reference.genesis)
                 = true) by (vm_compute; reflexivity).
    assert (Ha : existsb is_admin_provisioning
                   (trace Reference.env transparent_call Reference.genesis)
                 = true) by (vm_compute; reflexivity).
    apply existsb_exists in Hd. destruct Hd as (ev & Hin & Hev).
    destruct (is_deploy_request ev Hev) as (PF & values & Hreq).
    destruct (H ev PF values Hin Hreq) as (impl & k & data & types & _ & _ & Hk).
    destruct k; cbn [dispatched] in Hk.
    + destruct Hk as (_ & Hno & _).
      change (existsb is_admin_provisioning
                (trace Reference.env transparent_call Reference.genesis) = false) in Hno.
      rewrite Ha in Hno. discriminate Hno.
    + destruct Hk as (AF & adminAddress & _ & Hfetch & _ & -> & _).
      exists ev, PF, impl, adminAddress, data, AF.
      split; [exact Hin|]. split; [exact Hreq | exact Hfetch].
    + contradiction.
Defined.

(* ================================================================== *)
(** ** The implementation on the deterministic path *)

(** C10. On the deterministic path the implementation is deployed through
    [deployContract] with empty constructor types and arguments, so that,
    the ABI coder encoding nothing as [0x], its init code is exactly
    [ImplFactory.bytecode]: every [factory.deploy] of the implementation step,
    and the first one of a whole call, carries that code, and a step that
    returns made exactly that call and awaited its confirmation.  The
    initializer arguments do not reach the step; they reach [deployProxy]
    only through the initializer call data: two argument lists with the same
    call data give the same program. *)
Theorem implementation_init_code_is_the_bytecode :
  forall (keccak_256 : list byte -> list byte)
         (abi_encode : list string -> list Value -> option string)
         (getInitializerData : Interface -> list Value -> option Initializer -> option string)
         (hre : HardhatRuntimeEnvironment) (W : Type) (env : Env W) (w : W)
         (ImplFactory : ContractFactory) (opts : DeployProxyOptions)
         (factory : Contract) (salt : Salt),
    deployFactory opts = Some factory ->
    deployFactorySalt opts = Some salt ->
    abi_encode [] [] = Some "0x" ->
    let step := deployImplementation keccak_256 abi_encode hre ImplFactory opts in
    buildBytecode abi_encode [] [] (bytecode ImplFactory) = Some (bytecode ImplFactory)
    /\ Forall (deploys_code (bytecode ImplFactory)) (trace env step w)
    /\ (succeeded (outcome env step w) = true ->
        exists tx,
          trace env step w
          = [ Ev (factory_deploy factory (bytecode ImplFactory) (saltToHex keccak_256 salt))
                (inr tx);
              Ev (deployTransaction_wait tx) (inr tt) ])
    /\ (forall args,
          match filter is_factory_deploy
                  (trace env
                     (deployProxy keccak_256 abi_encode getInitializerData hre ImplFactory
                        (Some (ArgsArray args)) (Some opts)) w) with
          | ev :: _ => deploys_code (bytecode ImplFactory) ev
          | [] => True
          end)
    /\ (forall args args',
          getInitializerData (interface ImplFactory) args (initializer opts)
          = getInitializerData (interface ImplFactory) args' (initializer opts) ->
          deployProxy keccak_256 abi_encode getInitializerData hre ImplFactory
            (Some (ArgsArray args)) (Some opts)
          = deployProxy keccak_256 abi_encode getInitializerData hre ImplFactory
              (Some (ArgsArray args')) (Some opts)).
Proof.
  intros keccak_256 abi_encode getInitializerData hre W env w ImplFactory opts
    factory salt Hf Hs Hnil step.
  assert (Hcode : buildBytecode abi_encode [] [] (bytecode ImplFactory)
                  = Some (bytecode ImplFactory)).
  { unfold buildBytecode, encodeParams. rewrite Hnil. cbn [JsString.slice].
    now rewrite append_empty_r. }
  split; [exact Hcode|].
  split; [|split; [|split]].
  - subst step. unfold trace, deployImplementation, deployContract. rewrite Hf, Hs.
    cbn [or_default]. rewrite Hcode.
    execute env; cbn [fst]; repeat constructor.
  - subst step. unfold trace, outcome, deployImplementation, deployContract.
    rewrite Hf, Hs. cbn [or_default]. rewrite Hcode.
    execute env; cbn [fst snd succeeded]; try discriminate.
    intros _.
    repeat match goal with u : unit |- _ => destruct u end.
    eexists. reflexivity.
  - intros args. unfold trace.
    destruct (run env _ w) as [[tr r] w'] eqn:Hrun. cbn [fst].
    exact (run_implementation_code _ _ _ _ _ _ _ _ _ _ _ _ _ Hrun Hnil).
  - intros args args' Hdata. unfold deployProxy. cbn [normalize or_default].
    now rewrite Hdata.
Qed.

Lemma implementation_init_code_is_the_bytecode_witness :
  let step := deployImplementation Reference.keccak_256 Reference.abi_encode
                Reference.hardhat Reference.Greeter (Inputs.deterministic_options None) in
  Forall (deploys_code (bytecode Reference.Greeter))
    (trace Reference.env step Reference.genesis)
  /\ List.length (trace Reference.env step Reference.genesis) = 2.
Proof.
  intros step.
  destruct (implementation_init_code_is_the_bytecode
              Reference.keccak_256 Reference.abi_encode Reference.getInitializerData
              Reference.hardhat Reference.World Reference.env Reference.genesis
              Reference.Greeter (Inputs.deterministic_options None)
              Reference.create2Factory (SaltString "test") eq_refl eq_refl eq_refl)
    as (_ & Hall & Hret & _).
  split; [exact Hall|].
  destruct Hret as [tx Htx]; [vm_compute; reflexivity|].
  fold step in Htx. now rewrite Htx.
Defined.

(* ================================================================== *)
(** ** More on the deterministic address: failures, prefixes and case *)

Module MoreHexFacts.
Import Hex JsString.

(** Induction over a string two characters at a time. *)
Lemma string_pair_ind (P : string -> Prop) :
  P EmptyString ->
  (forall c, P (String c EmptyString)) ->
  (forall c1 c2 s, P s -> P (String c1 (String c2 s))) ->
  forall s, P s.
Proof.
  intros H0 H1 H2.
  fix IH 1. intros [|c1 [|c2 s]]; [exact H0 | apply H1 | apply H2, IH].
Qed.

Lemma parse_hex_odd_length (s : string) :
  Nat.odd (String.length s) = true -> parse_hex s = None.
Proof.
  induction s as [|c|c1 c2 s IH] using string_pair_ind; intros H.
  - discriminate H.
  - reflexivity.
  - cbn [parse_hex]. cbn [String.length] in H.
    change (Nat.odd (S (S (String.length s)))) with (Nat.odd (String.length s)) in H.
    rewrite (IH H). now destruct (char_nibble c1), (char_nibble c2).
Qed.

(** Hex digits appended to a string are parsed as bytes appended to its
    bytes, and do not mend a string that is no hex data. *)
Lemma parse_hex_app_digits (a : string) (bs : list byte) :
  parse_hex (a ++ hex_of_bytes bs)
  = match parse_hex a with
    | Some f => Some (f ++ bs)
    | None => None
    end.
Proof.
  induction a as [|c|c1 c2 a IH] using string_pair_ind.
  - apply HexFacts.parse_hex_of_bytes.
  - cbn [parse_hex]. apply parse_hex_odd_length.
    cbn [String.append String.length].
    rewrite HexFacts.length_hex_of_bytes.
    rewrite Nat.odd_succ, Nat.even_mul. reflexivity.
  - cbn [String.append parse_hex]. rewrite IH.
    destruct (char_nibble c1), (char_nibble c2), (parse_hex a); reflexivity.
Qed.

(** Any string appended to hex data of whole bytes. *)
Lemma parse_hex_app_l (a d : string) (f : list byte) :
  parse_hex a = Some f ->
  parse_hex (a ++ d)
  = match parse_hex d with
    | Some bs => Some (f ++ bs)
    | None => None
    end.
Proof.
  revert f. induction a as [|c|c1 c2 a IH] using string_pair_ind; intros f H.
  - injection H as <-. cbn. now destruct (parse_hex d).
  - discriminate H.
  - cbn [String.append parse_hex] in *.
    destruct (char_nibble c1) as [h|]; [|discriminate H].
    destruct (char_nibble c2) as [l|]; [|discriminate H].
    destruct (parse_hex a) as [g|]; [|discriminate H].
    injection H as <-. rewrite (IH g eq_refl). now destruct (parse_hex d).
Qed.

Lemma char_nibble_x : char_nibble "x" = None.
Proof. reflexivity. Qed.

(** A string of hex digits holds no [0x] to replace. *)
Lemma replace_0x_digits (d : string) (f : list byte) :
  parse_hex d = Some f -> replace_0x d = d.
Proof.
  assert (Hgen : forall s,
             (forall c, In c (list_ascii_of_string s) -> char_nibble c <> None) ->
             replace_0x s = s).
  { induction s as [|c s IH]; intros Hall; [reflexivity|].
    cbn [replace_0x]. destruct s as [|c' s']; [reflexivity|].
    destruct (Ascii.eqb c "0" && Ascii.eqb c' "x")%bool eqn:E.
    - apply andb_prop in E as [_ E]. apply Ascii.eqb_eq in E. subst c'.
      exfalso. apply (Hall "x"%char); [cbn; auto | reflexivity].
    - f_equal. apply IH. intros c0 Hin. apply Hall. now right. }
  intros H. apply Hgen. revert f H.
  induction d as [|c|c1 c2 d IH] using string_pair_ind; intros f H c0 Hin.
  - destruct Hin.
  - discriminate H.
  - cbn [parse_hex] in H.
    destruct (char_nibble c1) as [h|] eqn:E1; [|discriminate H].
    destruct (char_nibble c2) as [l|] eqn:E2; [|discriminate H].
    destruct (parse_hex d) as [g|]; [|discriminate H].
    cbn [list_ascii_of_string In] in Hin.
    destruct Hin as [<-|[<-|Hin]]; [congruence | congruence | exact (IH g eq_refl c0 Hin)].
Qed.

End MoreHexFacts.

Section MoreAddressFacts.

Variable keccak_256 : list byte -> list byte.
Variable abi_encode : list string -> list Value -> option string.
Hypothesis keccak_256_length : forall bs, List.length (keccak_256 bs) = 32.

(** [buildCreate2Address] on a hashed salt, with its failures. *)
Lemma buildCreate2Address_hashed_salt (factoryAddress byteCode : string)
    (salt32 : list byte) :
  buildCreate2Address keccak_256 factoryAddress (Hex.hexlify salt32) byteCode
  = match Hex.arrayify byteCode, Hex.parse_hex (JsString.replace_0x factoryAddress) with
    | Some code, Some factory =>
        Some (Hex.hexlify
                (skipn 12 (keccak_256 ([xff] ++ factory ++ salt32 ++ keccak_256 code))))
    | _, _ => None
    end.
Proof.
  unfold buildCreate2Address, keccak256 at 1.
  destruct (Hex.arrayify byteCode) as [code|]; [|reflexivity].
  cbn [map JsString.join fold_right].
  unfold Hex.hexlify at 1 2. rewrite !HexFacts.replace_0x_prefixed.
  change (JsString.replace_0x "ff") with "ff".
  rewrite append_empty_r, <- HexFacts.hex_of_bytes_app.
  unfold keccak256. cbn [String.append Hex.arrayify].
  change (Hex.parse_hex (String "f" (String "f" ?s)))
    with (match Hex.parse_hex s with Some bs => Some (xff :: bs) | None => None end).
  rewrite MoreHexFacts.parse_hex_app_digits.
  destruct (Hex.parse_hex (JsString.replace_0x factoryAddress)) as [factory|];
    [|reflexivity].
  rewrite HexFacts.slice_last_digest by apply keccak_256_length.
  f_equal. apply (HexFacts.toLowerCase_hexlify (skipn 12 _)).
Qed.

End MoreAddressFacts.

(** X1. [getCreate2Address] throws exactly when the ABI coder does, when the
    bytecode followed by the encoded arguments is not [0x] and whole bytes of
    hex digits, or when the factory address, its first [0x] removed, is not
    whole bytes of hex digits; otherwise it returns the low-order 20 bytes of
    the hash of 0xff, the factory bytes, the hashed salt and the hash of the
    init code. *)
Theorem getCreate2Address_bytes_or_throws :
  forall (keccak_256 : list byte -> list byte)
         (abi_encode : list string -> list Value -> option string)
         (factoryAddress : string) (salt : Salt) (contractBytecode : string)
         (constructorTypes : option (list string))
         (constructorArgs : option (list Value)),
    (forall bs, List.length (keccak_256 bs) = 32) ->
    getCreate2Address keccak_256 abi_encode factoryAddress salt contractBytecode
      constructorTypes constructorArgs
    = match abi_encode (or_default [] constructorTypes) (or_default [] constructorArgs) with
      | Some encoded =>
          match Hex.arrayify (contractBytecode ++ JsString.slice 2 encoded)%string,
                Hex.parse_hex (JsString.replace_0x factoryAddress) with
          | Some initCode, Some factory =>
              let salt32 := keccak_256 (Hex.toUtf8Bytes (salt_toString salt)) in
              Some (Hex.hexlify
                      (skipn 12 (keccak_256
                                   ([xff] ++ factory ++ salt32 ++ keccak_256 initCode))))
          | _, _ => None
          end
      | None => None
      end.
Proof.
  intros keccak_256 abi_encode factoryAddress salt contractBytecode
    constructorTypes constructorArgs Hlen.
  unfold getCreate2Address, buildBytecode, encodeParams.
  destruct (abi_encode _ _) as [encoded|]; [|reflexivity].
  unfold saltToHex, id.
  apply (buildCreate2Address_hashed_salt keccak_256 Hlen).
Qed.

Lemma getCreate2Address_bytes_or_throws_witness :
  getCreate2Address Keccak.keccak_256 Abi.encode Cases.bare_factory (SaltNumber 7)
    "0x00" None None
  = Some (Hex.hexlify
            (skipn 12 (Keccak.keccak_256
                         ([xff] ++ repeat xff 20
                          ++ Keccak.keccak_256 (Hex.toUtf8Bytes "7")
                          ++ Keccak.keccak_256 [x00]))))
  /\ getCreate2Address Keccak.keccak_256 Abi.encode "0xfg" (SaltNumber 7)
       "0x00" None None = None.
Proof.
  split;
    rewrite (getCreate2Address_bytes_or_throws Keccak.keccak_256 Abi.encode _ _ _ _ _
               KeccakFacts.length_keccak_256);
    reflexivity.
Defined.

(** X2. Whenever [getCreate2Address] returns, whatever its arguments, the
    result is [0x] followed by the forty lower-case hex digits of 20 bytes. *)
Theorem getCreate2Address_returns_an_address :
  forall (keccak_256 : list byte -> list byte)
         (abi_encode : list string -> list Value -> option string)
         (factoryAddress : string) (salt : Salt) (contractBytecode : string)
         (constructorTypes : option (list string))
         (constructorArgs : option (list Value)) (addr : string),
    (forall bs, List.length (keccak_256 bs) = 32) ->
    getCreate2Address keccak_256 abi_encode factoryAddress salt contractBytecode
      constructorTypes constructorArgs = Some addr ->
    (exists bs, List.length bs = 20 /\ addr = Hex.hexlify bs)
    /\ String.length addr = 42
    /\ JsString.toLowerCase addr = addr.
Proof.
  intros keccak_256 abi_encode factoryAddress salt contractBytecode
    constructorTypes constructorArgs addr Hlen.
  rewrite (getCreate2Address_bytes_or_throws _ _ _ _ _ _ _ Hlen).
  destruct (abi_encode _ _) as [encoded|]; [|discriminate].
  destruct (Hex.arrayify _) as [initCode|]; [|discriminate].
  destruct (Hex.parse_hex _) as [factory|]; [|discriminate].
  cbv zeta. intros [= <-].
  set (digest := keccak_256 _).
  assert (H20 : List.length (skipn 12 digest) = 20).
  { rewrite length_skipn. subst digest. now rewrite Hlen. }
  split; [|split].
  - eexists. split; [exact H20 | reflexivity].
  - unfold Hex.hexlify. cbn [String.append String.length].
    rewrite HexFacts.length_hex_of_bytes.
    exact (f_equal (fun n => S (S (2 * n))) H20).
  - apply HexFacts.toLowerCase_hexlify.
Qed.

Lemma getCreate2Address_returns_an_address_witness :
  String.length "0xd7d6d693b6157e4c97043419813a2ed43a8dface" = 42
  /\ JsString.toLowerCase "0xd7d6d693b6157e4c97043419813a2ed43a8dface"
     = "0xd7d6d693b6157e4c97043419813a2ed43a8dface".
Proof.
  assert (H : getCreate2Address Keccak.keccak_256 Abi.encode
                "0xFFFFFFFFFFFFFFFFFFFFFFFFFFFFFFFFFFFFFFFF" (SaltString "test") "0x00"
                None None
              = Some "0xd7d6d693b6157e4c97043419813a2ed43a8dface")
    by (vm_compute; reflexivity).
  exact (proj2 (getCreate2Address_returns_an_address Keccak.keccak_256 Abi.encode
                  _ _ _ _ _ _ KeccakFacts.length_keccak_256 H)).
Defined.



(** X4. The address depends on the factory address and on the bytecode only
    through the bytes they denote: two spellings of the same bytes, such as
    an address with and without the capitals of its checksum, give the same
    result. *)
Theorem getCreate2Address_depends_on_the_bytes :
  forall (keccak_256 : list byte -> list byte)
         (abi_encode : list string -> list Value -> option string)
         (factoryAddress factoryAddress' : string) (salt : Salt)
         (contractBytecode contractBytecode' : string)
         (constructorTypes : option (list string))
         (constructorArgs : option (list Value))
         (factory code : list byte),
    (forall bs, List.length (keccak_256 bs) = 32) ->
    Hex.arrayify factoryAddress = Some factory ->
    Hex.arrayify factoryAddress' = Some factory ->
    Hex.arrayify contractBytecode = Some code ->
    Hex.arrayify contractBytecode' = Some code ->
    getCreate2Address keccak_256 abi_encode factoryAddress salt contractBytecode
      constructorTypes constructorArgs
    = getCreate2Address keccak_256 abi_encode factoryAddress' salt contractBytecode'
        constructorTypes constructorArgs.
Proof.
  intros keccak_256 abi_encode factoryAddress factoryAddress' salt
    contractBytecode contractBytecode' constructorTypes constructorArgs factory code
    Hlen Hf Hf' Hc Hc'.
  rewrite !(getCreate2Address_bytes_or_throws _ _ _ _ _ _ _ Hlen).
  apply HexFacts.arrayify_inv in Hf as (fd & -> & Hf).
  apply HexFacts.arrayify_inv in Hf' as (fd' & -> & Hf').
  apply HexFacts.arrayify_inv in Hc as (cd & -> & Hc).
  apply HexFacts.arrayify_inv in Hc' as (cd' & -> & Hc').
  rewrite !HexFacts.replace_0x_prefixed, Hf, Hf'.
  destruct (abi_encode _ _) as [encoded|]; [|reflexivity].
  cbn [String.append Hex.arrayify].
  now rewrite (MoreHexFacts.parse_hex_app_l cd _ code Hc),
    (MoreHexFacts.parse_hex_app_l cd' _ code Hc').
Qed.

Lemma getCreate2Address_depends_on_the_bytes_witness :
  getCreate2Address Keccak.keccak_256 Abi.encode Cases.checksummed (SaltString "test")
    "0x6080AB" None None
  = getCreate2Address Keccak.keccak_256 Abi.encode Cases.lower_case (SaltString "test")
      "0x6080ab" None None.
Proof.
  apply (getCreate2Address_depends_on_the_bytes Keccak.keccak_256 Abi.encode
           Cases.checksummed Cases.lower_case (SaltString "test") "0x6080AB" "0x6080ab"
           None None
           [x5f; xbd; xb2; x31; x56; x78; xaf; xec; xb3; x67;
            xf0; x32; xd9; x3f; x64; x2f; x64; x18; x0a; xa3]
           [x60; x80; xab]
           KeccakFacts.length_keccak_256);
    reflexivity.
Defined.

(** X5. The factory address may come without its [0x]: hex digits alone give
    the address that the same digits behind [0x] give.  The bytecode may
    not: one that does not begin with [0x] makes [getCreate2Address] throw. *)
Theorem getCreate2Address_0x_prefix :
  forall (keccak_256 : list byte -> list byte)
         (abi_encode : list string -> list Value -> option string)
         (salt : Salt) (constructorTypes : option (list string))
         (constructorArgs : option (list Value)),
    (forall bs, List.length (keccak_256 bs) = 32) ->
    (forall digits factory contractBytecode,
        Hex.parse_hex digits = Some factory ->
        getCreate2Address keccak_256 abi_encode digits salt contractBytecode
          constructorTypes constructorArgs
        = getCreate2Address keccak_256 abi_encode ("0x" ++ digits) salt contractBytecode
            constructorTypes constructorArgs)
    /\ (forall factoryAddress c1 c2 rest,
          String c1 (String c2 EmptyString) <> "0x" ->
          getCreate2Address keccak_256 abi_encode factoryAddress salt
            (String c1 (String c2 rest)) constructorTypes constructorArgs = None).
Proof.
  intros keccak_256 abi_encode salt constructorTypes constructorArgs Hlen. split.
  - intros digits factory contractBytecode Hd.
    rewrite !(getCreate2Address_bytes_or_throws _ _ _ _ _ _ _ Hlen).
    now rewrite HexFacts.replace_0x_prefixed, (MoreHexFacts.replace_0x_digits _ _ Hd).
  - intros factoryAddress c1 c2 rest Hne.
    rewrite (getCreate2Address_bytes_or_throws _ _ _ _ _ _ _ Hlen).
    destruct (abi_encode _ _) as [encoded|]; [|reflexivity].
    cbn [String.append].
    replace (Hex.arrayify (String c1 (String c2 (rest ++ JsString.slice 2 encoded))))
      with (@None (list byte)); [reflexivity|].
    symmetry.
    destruct c1 as [[] [] [] [] [] [] [] []]; try reflexivity.
    destruct c2 as [[] [] [] [] [] [] [] []]; try reflexivity.
    now contradiction Hne.
Qed.

Lemma getCreate2Address_0x_prefix_witness :
  getCreate2Address Keccak.keccak_256 Abi.encode Cases.bare_factory (SaltString "test")
    "0x00" None None
  = getCreate2Address Keccak.keccak_256 Abi.encode ("0x" ++ Cases.bare_factory)
      (SaltString "test") "0x00" None None
  /\ getCreate2Address Keccak.keccak_256 Abi.encode Cases.bare_factory (SaltString "test")
       "6080" None None = None.
Proof.
  destruct (getCreate2Address_0x_prefix Keccak.keccak_256 Abi.encode (SaltString "test")
              None None KeccakFacts.length_keccak_256) as [Hbare Hcode].
  split.
  - exact (Hbare Cases.bare_factory (repeat xff 20) "0x00" eq_refl).
  - apply (Hcode Cases.bare_factory "6"%char "0"%char "80"). discriminate.
Defined.

(* ================================================================== *)
(** ** More on the runs of deployContract and deployProxy *)

(** Checks a run against [calls_in_order] for a kind and a warning chosen. *)
Ltac in_order :=
  split; [first [intros _; reflexivity | intros H; discriminate H]|];
  split;
    [ let ev := fresh "ev" in
      let k' := fresh "k'" in
      let Hin := fresh "Hin" in
      let Hev := fresh "Hev" in
      intros ev k' Hin Hev; cbn [In] in Hin;
      repeat (destruct Hin as [<-|Hin]; [try discriminate Hev|]);
      try contradiction; now injection Hev |];
  split; [discriminate|];
  split; [reflexivity|];
  first [intros H; discriminate H | intros _; reflexivity].

Section OrderFacts.
Variable keccak_256 : list byte -> list byte.
Variable abi_encode : list string -> list Value -> option string.
Variable getInitializerData :
  Interface -> list Value -> option Initializer -> option string.
Variable hre : HardhatRuntimeEnvironment.
Variable W : Type.
Variable env : Env W.

Let program := deployProxy keccak_256 abi_encode getInitializerData hre.

Lemma run_calls_in_order (w : W) (F : ContractFactory) (a : option ArgsOrOpts)
    (o : option DeployProxyOptions) (tr : list Event) (r : Error + ContractInstance)
    (w' : W) :
  run env (program F a o) w = (tr, r, w') ->
  let opts := snd (normalize a o) in
  exists k warned,
    (deterministic opts = true -> k = or_default uups (kind opts))
    /\ (forall ev k', In ev tr -> answered_kind ev = Some k' -> k = k')
    /\ tr <> []
    /\ initial_segment (map name_of tr) (calls_in_order (deterministic opts) k warned)
    /\ (succeeded r = true ->
        map name_of tr = calls_in_order (deterministic opts) k warned).
Proof.
  subst program. unfold deployProxy. destruct (normalize a o) as [args opts]. cbn [snd].
  by_path opts; [destruct (kind opts) as [[]|]; cbn [or_default]|];
    execute env; intros [= <- <- <-];
    repeat match goal with k : ProxyKind |- _ => destruct k end;
    first [ exists uups, true; solve [in_order]
          | exists uups, false; solve [in_order]
          | exists transparent, false; solve [in_order]
          | exists beacon, false; solve [in_order] ].
Qed.

(** The handle returned and the proxy appended. *)
Lemma run_returns_appended (w : W) (F : ContractFactory) (a : option ArgsOrOpts)
    (o : option DeployProxyOptions) (tr : list Event) (r : Error + ContractInstance)
    (w' : W) (inst : ContractInstance) :
  run env (program F a o) w = (tr, r, w') ->
  r = inr inst ->
  exists m proxy u,
    hd_error tr = Some (Ev (Manifest_forNetwork (provider hre)) (inr m))
    /\ last_call tr = Some (Ev (manifest_addProxy m proxy) (inr u))
    /\ inst = {| inst_address := pd_address proxy;
                 inst_interface := interface F;
                 inst_signer := signer F;
                 inst_deployTransaction := Some (pd_deployTransaction proxy) |}.
Proof.
  subst program. unfold deployProxy. destruct (normalize a o) as [args opts].
  by_path opts; execute env; intros [= <- <- <-] Hr; try discriminate Hr;
    injection Hr as <-; do 3 eexists; repeat split.
Qed.


Lemma run_warnings (w : W) (F : ContractFactory) (a : option ArgsOrOpts)
    (o : option DeployProxyOptions) (tr : list Event) (r : Error + ContractInstance)
    (w' : W) :
  run env (program F a o) w = (tr, r, w') ->
  List.length (filter is_logWarning tr) <= 1
  /\ List.length (filter is_getAdmin tr) <= 1
  /\ (forallb admin_unreported tr = true -> existsb is_logWarning tr = false)
  /\ (forall k, resolves_to env (snd (normalize a o)) k -> k <> uups ->
      existsb is_getAdmin tr = false /\ existsb is_logWarning tr = false).
Proof.
  subst program. open_deployProxy a o;
    execute env; intros [= <- <- <-];
    cbn; (split; [lia|]); (split; [lia|]); (split; [intros H; first [reflexivity | discriminate H]|]);
    intros k0 Hk Hne; try (destruct Hk as [Hspec Hk]); try congruence;
    try (split; reflexivity); exfalso; by_specified_kind env.
Qed.


(** The addresses of a successful deterministic call. *)
Lemma run_deterministic_addresses (w : W) (F : ContractFactory) (a : option ArgsOrOpts)
    (o : option DeployProxyOptions) (tr : list Event) (r : Error + ContractInstance)
    (w' : W) (factory : Contract) (salt : Salt) (inst : ContractInstance) :
  run env (program F a o) w = (tr, r, w') ->
  deployFactory (snd (normalize a o)) = Some factory ->
  deployFactorySalt (snd (normalize a o)) = Some salt ->
  r = inr inst ->
  exists impl data ProxyFactory values types,
    getCreate2Address keccak_256 abi_encode (contract_address factory) salt (bytecode F)
      (Some []) (Some []) = Some impl
    /\ getInitializerData (interface F) (fst (normalize a o))
         (initializer (snd (normalize a o))) = Some data
    /\ dispatched hre F tr (or_default uups (kind (snd (normalize a o)))) impl data
         ProxyFactory values types
    /\ getCreate2Address keccak_256 abi_encode (contract_address factory) salt
         (bytecode ProxyFactory) (Some types) (Some values) = Some (inst_address inst).
Proof.
  subst program. unfold deployProxy. destruct (normalize a o) as [args opts].
  cbn [fst snd]. intros Hrun Hf Hs. revert Hrun.
  unfold deployImplementation, warnAboutAdmin, dispatchKind, createProxy, deployContract.
  rewrite Hf, Hs.
  destruct (kind opts) as [[]|]; cbn [or_default];
    execute env; intros [= <- <- <-] Hr; try discriminate Hr;
    injection Hr as <-; do 5 eexists;
    (split; [reflexivity|]); (split; [reflexivity|]);
    cbn [dispatched];
    (split; [|cbn [inst_address set_deployTransaction attach pd_address Object_assign_kind
                   address]; eassumption]);
    first [ split; [cbn [In]; eauto 12 | split; [reflexivity | split; reflexivity]]
          | do 2 eexists; split; [cbn [In]; eauto 12|]; split; [cbn [In]; eauto 12|];
            split; [cbn [In]; eauto 12|]; split; reflexivity ].
Qed.


End OrderFacts.

(** X6. [deployContract] submits at most one transaction and never retries:
    when the address cannot be computed it throws before any call and leaves
    the world as it is; a rejected [factory.deploy] is passed on as it came;
    a deployment returned is that of the one [factory.deploy] made, with the
    built creation code and the hashed salt, and its [txHash] is the hash of
    its transaction. *)
Theorem deployContract_submits_once :
  forall (keccak_256 : list byte -> list byte)
         (abi_encode : list string -> list Value -> option string)
         (W : Type) (env : Env W) (w : W)
         (salt : Salt) (factory : Contract) (contractBytecode : string)
         (constructorTypes : option (list string))
         (constructorArgs : option (list Value)),
    let p := deployContract keccak_256 abi_encode salt factory contractBytecode
               constructorTypes constructorArgs in
    List.length (trace env p w) <= 1
    /\ (getCreate2Address keccak_256 abi_encode (contract_address factory) salt
          contractBytecode constructorTypes constructorArgs = None ->
        run env p w = ([], inl LibraryError, w))
    /\ (forall e,
          outcome env p w = inl e ->
          (e = LibraryError /\ trace env p w = [])
          \/ exists code,
               trace env p w
               = [Ev (factory_deploy factory code (saltToHex keccak_256 salt)) (inl e)])
    /\ (forall d,
          outcome env p w = inr d ->
          txHash d = hash (deployTransaction d)
          /\ exists code,
               buildBytecode abi_encode (or_default [] constructorTypes)
                 (or_default [] constructorArgs) contractBytecode = Some code
               /\ trace env p w
                  = [Ev (factory_deploy factory code (saltToHex keccak_256 salt))
                       (inr (deployTransaction d))]).
Proof.
  intros keccak_256 abi_encode W env w salt factory contractBytecode
    constructorTypes constructorArgs p.
  subst p. unfold trace, outcome. rewrite run_deployContract.
  destruct (buildBytecode abi_encode _ _ contractBytecode) as [code|] eqn:Ecode.
  - destruct (getCreate2Address _ _ _ _ _ _ _) as [addr|].
    + cbv zeta. destruct (env _ _ w) as [[e|tx] w']; cbn [fst snd List.length].
      * split; [lia|]. split; [discriminate|]. split; [|discriminate].
        intros e' [= <-]. right. now exists code.
      * split; [lia|]. split; [discriminate|]. split; [discriminate|].
        intros d [= <-]. split; [reflexivity|]. now exists code.
    + cbn [fst snd List.length]. split; [lia|]. split; [reflexivity|].
      split; [|discriminate]. intros e [= <-]. now left.
  - cbn [fst snd List.length]. split; [lia|]. split; [reflexivity|].
    split; [|discriminate]. intros e [= <-]. now left.
Qed.

Lemma deployContract_submits_once_witness :
  let twice :=
    bind (deployContract Keccak.keccak_256 Abi.encode (SaltString "test")
            Reference.create2Factory "0x00" None None)
      (fun _ => deployContract Keccak.keccak_256 Abi.encode (SaltString "test")
                  Reference.create2Factory "0x00" None None) in
  run Reference.env
    (deployContract Keccak.keccak_256 Abi.encode (SaltString "test")
       Reference.create2Factory "00" None None) Reference.genesis
  = ([], inl LibraryError, Reference.genesis)
  /\ outcome Reference.env twice Reference.genesis
     = inl (Rejected "address already holds code").
Proof.
  intros twice. split.
  - apply (proj1 (proj2 (deployContract_submits_once
                           Keccak.keccak_256 Abi.encode Reference.World Reference.env
                           Reference.genesis (SaltString "test") Reference.create2Factory
                           "00" None None))).
    vm_compute. reflexivity.
  - vm_compute. reflexivity.
Defined.

(** X7. The contract that [deployProxy] returns is bound to the proxy it
    appended: its address and its deployment transaction are those of the
    ProxyDeployment of the last call, which appends to the manifest that the
    first call opened; its interface and signer are those of the
    implementation factory. *)
Theorem deployProxy_returns_the_appended_proxy :
  forall (keccak_256 : list byte -> list byte)
         (abi_encode : list string -> list Value -> option string)
         (getInitializerData : Interface -> list Value -> option Initializer -> option string)
         (hre : HardhatRuntimeEnvironment) (W : Type) (env : Env W) (w : W)
         (ImplFactory : ContractFactory)
         (args : option ArgsOrOpts) (opts : option DeployProxyOptions)
         (inst : ContractInstance),
    let p := deployProxy keccak_256 abi_encode getInitializerData hre ImplFactory args opts in
    outcome env p w = inr inst ->
    exists m proxy u,
      hd_error (trace env p w) = Some (Ev (Manifest_forNetwork (provider hre)) (inr m))
      /\ last_call (trace env p w) = Some (Ev (manifest_addProxy m proxy) (inr u))
      /\ inst = {| inst_address := pd_address proxy;
                   inst_interface := interface ImplFactory;
                   inst_signer := signer ImplFactory;
                   inst_deployTransaction := Some (pd_deployTransaction proxy) |}.
Proof.
  intros keccak_256 abi_encode getInitializerData hre W env w ImplFactory args opts
    inst p.
  unfold outcome, trace. destruct (run env p w) as [[tr r] w'] eqn:Hrun.
  cbn [fst snd]. exact (run_returns_appended _ _ _ _ _ _ _ _ _ _ _ _ _ _ Hrun).
Qed.

Lemma deployProxy_returns_the_appended_proxy_witness :
  let p := Reference.deployProxy Reference.Greeter Inputs.forty_two
             (Some (Inputs.ordinary_options None)) in
  exists inst m proxy u,
    outcome Reference.env p Reference.genesis = inr inst
    /\ last_call (trace Reference.env p Reference.genesis)
       = Some (Ev (manifest_addProxy m proxy) (inr u))
    /\ inst_address inst = pd_address proxy.
Proof.
  intros p.
  assert (Hs : succeeded (outcome Reference.env p Reference.genesis) = true)
    by (vm_compute; reflexivity).
  destruct (outcome Reference.env p Reference.genesis) as [e|inst] eqn:H;
    [discriminate Hs|].
  destruct (deployProxy_returns_the_appended_proxy
              Reference.keccak_256 Reference.abi_encode Reference.getInitializerData
              Reference.hardhat Reference.World Reference.env Reference.genesis
              Reference.Greeter Inputs.forty_two (Some (Inputs.ordinary_options None))
              inst H) as (m & proxy & u & _ & Hlast & ->).
  exists {| inst_address := pd_address proxy;
            inst_interface := interface Reference.Greeter;
            inst_signer := signer Reference.Greeter;
            inst_deployTransaction := Some (pd_deployTransaction proxy) |}, m, proxy, u.
  split; [reflexivity | split; [exact Hlast | reflexivity]].
Defined.

(** X8. On the deterministic path the addresses of a successful call can be
    computed beforehand: the implementation address that enters the proxy's
    constructor arguments is [getCreate2Address] of the factory, the salt and
    [ImplFactory.bytecode] with no constructor arguments, and the address of
    the returned contract is [getCreate2Address] of the same factory and
    salt, the bytecode of the proxy factory obtained, and the constructor
    types and arguments of the requested kind, uups by default. *)
Theorem deterministic_addresses_are_predictable :
  forall (keccak_256 : list byte -> list byte)
         (abi_encode : list string -> list Value -> option string)
         (getInitializerData : Interface -> list Value -> option Initializer -> option string)
         (hre : HardhatRuntimeEnvironment) (W : Type) (env : Env W) (w : W)
         (ImplFactory : ContractFactory)
         (args : option ArgsOrOpts) (opts : option DeployProxyOptions)
         (factory : Contract) (salt : Salt) (inst : ContractInstance),
    let arguments := fst (normalize args opts) in
    let options := snd (normalize args opts) in
    let p := deployProxy keccak_256 abi_encode getInitializerData hre ImplFactory args opts in
    deployFactory options = Some factory ->
    deployFactorySalt options = Some salt ->
    outcome env p w = inr inst ->
    exists impl data ProxyFactory values types,
      getCreate2Address keccak_256 abi_encode (contract_address factory) salt
        (bytecode ImplFactory) (Some []) (Some []) = Some impl
      /\ getInitializerData (interface ImplFactory) arguments (initializer options)
         = Some data
      /\ dispatched hre ImplFactory (trace env p w) (or_default uups (kind options))
           impl data ProxyFactory values types
      /\ getCreate2Address keccak_256 abi_encode (contract_address factory) salt
           (bytecode ProxyFactory) (Some types) (Some values) = Some (inst_address inst).
Proof.
  intros keccak_256 abi_encode getInitializerData hre W env w ImplFactory args opts
    factory salt inst arguments options p.
  unfold outcome, trace. destruct (run env p w) as [[tr r] w'] eqn:Hrun.
  cbn [fst snd]. exact (run_deterministic_addresses _ _ _ _ _ _ _ _ _ _ _ _ _ _ _ _ Hrun).
Qed.

Lemma deterministic_addresses_are_predictable_witness :
  let p := Reference.deployProxy Reference.Greeter Inputs.forty_two
             (Some (Inputs.deterministic_options None)) in
  exists inst impl data ProxyFactory,
    outcome Reference.env p Reference.genesis = inr inst
    /\ getCreate2Address Reference.keccak_256 Reference.abi_encode
         (contract_address Reference.create2Factory) (SaltString "test")
         (bytecode Reference.Greeter) (Some []) (Some []) = Some impl
    /\ getCreate2Address Reference.keccak_256 Reference.abi_encode
         (contract_address Reference.create2Factory) (SaltString "test")
         (bytecode ProxyFactory) (Some ["address"; "bytes"])
         (Some [VString impl; VString data]) = Some (inst_address inst).
Proof.
  intros p.
  assert (Hs : succeeded (outcome Reference.env p Reference.genesis) = true)
    by (vm_compute; reflexivity).
  destruct (outcome Reference.env p Reference.genesis) as [e|inst] eqn:H;
    [discriminate Hs|].
  destruct (deterministic_addresses_are_predictable
              Reference.keccak_256 Reference.abi_encode Reference.getInitializerData
              Reference.hardhat Reference.World Reference.env Reference.genesis
              Reference.Greeter Inputs.forty_two
              (Some (Inputs.deterministic_options None))
              Reference.create2Factory (SaltString "test") inst eq_refl eq_refl H)
    as (impl & data & PF & values & types & Himpl & _ & (_ & _ & -> & ->) & Haddr).
  exists inst, impl, data, PF.
  split; [reflexivity | split; [exact Himpl | exact Haddr]].
Defined.



(** X10. The calls of [deployProxy] come in one order.  Every run, failed or
    not, makes an initial segment of the sequence: the manifest; the
    implementation ([factory.deploy] and the wait for its confirmation, or
    deployProxyImpl); for uups [manifest.getAdmin()] and, if an admin is
    found, the warning; the factories of the kind, with [fetchOrDeployAdmin]
    for transparent; the creation of the proxy; the append to the manifest.
    A run that returns makes the whole sequence.  The kind is the requested
    one, uups by default, on the deterministic path, and otherwise the one
    deployProxyImpl answered.  No run is empty. *)
Theorem deployProxy_calls_in_order :
  forall (keccak_256 : list byte -> list byte)
         (abi_encode : list string -> list Value -> option string)
         (getInitializerData : Interface -> list Value -> option Initializer -> option string)
         (hre : HardhatRuntimeEnvironment) (W : Type) (env : Env W) (w : W)
         (ImplFactory : ContractFactory)
         (args : option ArgsOrOpts) (opts : option DeployProxyOptions),
    let options := snd (normalize args opts) in
    let p := deployProxy keccak_256 abi_encode getInitializerData hre ImplFactory args opts in
    exists k warned,
      (deterministic options = true -> k = or_default uups (kind options))
      /\ (forall ev k', In ev (trace env p w) -> answered_kind ev = Some k' -> k = k')
      /\ trace env p w <> []
      /\ initial_segment (map name_of (trace env p w))
           (calls_in_order (deterministic options) k warned)
      /\ (succeeded (outcome env p w) = true ->
          map name_of (trace env p w) = calls_in_order (deterministic options) k warned).
Proof.
  intros keccak_256 abi_encode getInitializerData hre W env w ImplFactory args opts
    options p.
  unfold trace, outcome. destruct (run env p w) as [[tr r] w'] eqn:Hrun.
  cbn [fst snd]. exact (run_calls_in_order _ _ _ _ _ _ _ _ _ _ _ _ _ Hrun).
Qed.

Lemma deployProxy_calls_in_order_witness :
  let p := Reference.deployProxy Reference.Greeter Inputs.forty_two
             (Some (Inputs.deterministic_options (Some transparent))) in
  exists warned,
    map name_of (trace Reference.env p Reference.genesis)
    = calls_in_order true transparent warned.
Proof.
  intros p.
  assert (Hs : succeeded (outcome Reference.env p Reference.genesis) = true)
    by (vm_compute; reflexivity).
  destruct (deployProxy_calls_in_order
              Reference.keccak_256 Reference.abi_encode Reference.getInitializerData
              Reference.hardhat Reference.World Reference.env Reference.genesis
              Reference.Greeter Inputs.forty_two
              (Some (Inputs.deterministic_options (Some transparent))))
    as (k & warned & Hk & _ & _ & _ & Hall).
  exists warned. rewrite (Hk eq_refl) in Hall. exact (Hall Hs).
Defined.

(** X11. The admin warning is logged at most once and only for uups with an
    admin found: [manifest.getAdmin()] is read at most once; a run in which
    it finds no admin logs nothing; a call that resolves another kind than
    uups neither reads the admin nor logs. *)
Theorem admin_warning_at_most_once :
  forall (keccak_256 : list byte -> list byte)
         (abi_encode : list string -> list Value -> option string)
         (getInitializerData : Interface -> list Value -> option Initializer -> option string)
         (hre : HardhatRuntimeEnvironment) (W : Type) (env : Env W) (w : W)
         (ImplFactory : ContractFactory)
         (args : option ArgsOrOpts) (opts : option DeployProxyOptions),
    let options := snd (normalize args opts) in
    let p := deployProxy keccak_256 abi_encode getInitializerData hre ImplFactory args opts in
    List.length (filter is_logWarning (trace env p w)) <= 1
    /\ List.length (filter is_getAdmin (trace env p w)) <= 1
    /\ (forallb admin_unreported (trace env p w) = true ->
        existsb is_logWarning (trace env p w) = false)
    /\ (forall k,
          resolves_to env options k -> k <> uups ->
          existsb is_getAdmin (trace env p w) = false
          /\ existsb is_logWarning (trace env p w) = false).
Proof.
  intros keccak_256 abi_encode getInitializerData hre W env w ImplFactory args opts
    options p.
  unfold trace. destruct (run env p w) as [[tr r] w'] eqn:Hrun.
  cbn [fst]. exact (run_warnings _ _ _ _ _ _ _ _ _ _ _ _ _ Hrun).
Qed.

Lemma admin_warning_at_most_once_witness :
  let fresh_call := Reference.deployProxy Reference.Greeter Inputs.forty_two
                      (Some (Inputs.deterministic_options (Some uups))) in
  let transparent_call := Reference.deployProxy Reference.Greeter Inputs.forty_two
                            (Some (Inputs.deterministic_options (Some transparent))) in
  existsb is_logWarning (trace Reference.env fresh_call Reference.genesis) = false
  /\ existsb is_getAdmin (trace Reference.env transparent_call Inputs.with_admin) = false.
Proof.
  intros fresh_call transparent_call. split.
  - apply (proj1 (proj2 (proj2 (admin_warning_at_most_once
                                  Reference.keccak_256 Reference.abi_encode
                                  Reference.getInitializerData Reference.hardhat
                                  Reference.World Reference.env Reference.genesis
                                  Reference.Greeter Inputs.forty_two
                                  (Some (Inputs.deterministic_options (Some uups))))))).
    vm_compute. reflexivity.
  - assert (Hk : resolves_to Reference.env
                   (snd (normalize Inputs.forty_two
                           (Some (Inputs.deterministic_options (Some transparent)))))
                   transparent) by reflexivity.
    assert (Hne : transparent <> uups) by discriminate.
    exact (proj1 (proj2 (proj2 (proj2 (admin_warning_at_most_once
                                         Reference.keccak_256 Reference.abi_encode
                                         Reference.getInitializerData Reference.hardhat
                                         Reference.World Reference.env Inputs.with_admin
                                         Reference.Greeter Inputs.forty_two
                                         (Some (Inputs.deterministic_options
                                                  (Some transparent))))))
                    transparent Hk Hne)).
Defined.


